(** * send_task.py: the task sender of the FlowMaestro orchestrator

    A shallow embedding of [scripts/send_task.py] and of the Python library
    calls it makes ([json.dump], [json.load], [dict.update], [uuid.uuid4],
    [pathlib.Path], [open]), followed by the properties of the producer.

    Conventions of the model.
    - A Python [str] is a Rocq [string]; each character stands for the code
      point of the same number, so the model covers code points below 256.
    - JSON text is a [list ascii]; file contents are [string]s.
    - JSON numbers are Python [int]s.  Float literals (and [NaN],
      [Infinity]) are outside the model: the scanner rejects them.
    - The filesystem is a finite map from [pathlib] part lists to nodes,
      without symbolic links and permissions. *)

From Stdlib Require Import ZArith NArith Ascii String List Lia Bool.
From Stdlib Require Import DecimalZ DecimalPos DecimalN DecimalFacts.
From stdpp Require Import base option list strings gmap.

#[local] Open Scope Z_scope.
#[local] Open Scope string_scope.
#[local] Open Scope list_scope.
#[local] Open Scope nat_scope.

(** ** Text *)

Abbreviation text := (list ascii).

Definition chars (s : string) : text := list_ascii_of_string s.
Definition str (t : text) : string := string_of_list_ascii t.

Definition code (c : ascii) : nat := nat_of_ascii c.

(** ** Python values that JSON can carry *)

(** Keys a [dict] can hold when it is built from JSON values: [dict.update]
    with a list of pairs can insert [int], [bool] and [None] keys next to
    [str] keys. *)
Inductive pykey :=
| KStr (s : string)
| KInt (z : Z)
| KBool (b : bool)
| KNone.

Unset Elimination Schemes.
Inductive json :=
| JNull
| JBool (b : bool)
| JInt (z : Z)
| JStr (s : string)
| JList (l : list json)
| JDict (d : list (pykey * json)).
Set Elimination Schemes.

(** A [dict] keeps its items in insertion order. *)
Abbreviation pydict := (list (pykey * json)).

Section json_induction.
Variable P : json -> Prop.
Hypothesis Hnull : P JNull.
Hypothesis Hbool : forall b, P (JBool b).
Hypothesis Hint : forall z, P (JInt z).
Hypothesis Hstr : forall s, P (JStr s).
Hypothesis Hlist : forall l, Forall P l -> P (JList l).
Hypothesis Hdict : forall d, Forall (fun kv => P (snd kv)) d -> P (JDict d).

End json_induction.

(** *** Key equality and dict operations *)

Definition bool_int (b : bool) : Z := if b then 1%Z else 0%Z.

(** [k1 == k2] on keys; [True == 1] and [False == 0] as in Python. *)
Definition key_eqb (k1 k2 : pykey) : bool :=
  match k1, k2 with
  | KStr s, KStr t => String.eqb s t
  | KInt a, KInt b => Z.eqb a b
  | KBool a, KBool b => Bool.eqb a b
  | KInt a, KBool b => Z.eqb a (bool_int b)
  | KBool a, KInt b => Z.eqb (bool_int a) b
  | KNone, KNone => true
  | _, _ => false
  end.

(** [d.get(k)] *)
Fixpoint dict_get (k : pykey) (d : pydict) : option json :=
  match d with
  | [] => None
  | (k', v) :: r => if key_eqb k' k then Some v else dict_get k r
  end.

(** [d[k] = v]: an existing key keeps its place (and its key object), a new
    key goes to the end. *)
Fixpoint dict_set (k : pykey) (v : json) (d : pydict) : pydict :=
  match d with
  | [] => [(k, v)]
  | (k', v') :: r =>
      if key_eqb k' k then (k', v) :: r else (k', v') :: dict_set k v r
  end.

(** [dict(pairs)] and [d.update(other_dict)]: set the items in order. *)
Definition dict_set_all (items : pydict) (d : pydict) : pydict :=
  fold_left (fun acc kv => dict_set (fst kv) (snd kv) acc) items d.

Definition dict_keys (d : pydict) : list pykey := map fst d.

(** ** json.dump: the encoder

    [json.dump(task, f, indent=2)] runs the encoder with its defaults:
    [ensure_ascii=True], item separator [","], key separator [": "]. *)

Definition hexdigit (n : nat) : ascii :=
  match n with
  | 0 => "0" | 1 => "1" | 2 => "2" | 3 => "3" | 4 => "4" | 5 => "5"
  | 6 => "6" | 7 => "7" | 8 => "8" | 9 => "9" | 10 => "a" | 11 => "b"
  | 12 => "c" | 13 => "d" | 14 => "e" | _ => "f"
  end%char.

(** The double quote, the backslash and the line feed. *)
Definition DQ : ascii := "034"%char.
Definition BSL : ascii := "092"%char.
Definition LF : ascii := "010"%char.

(** The replacement of one character in [py_encode_basestring_ascii]:
    the table [ESCAPE_DCT], else ["\\u{0:04x}"] for what lies outside
    [' '..'~']. *)
Definition escape_char (c : ascii) : text :=
  let n := code c in
  if Nat.eqb n 34 then [BSL; DQ]
  else if Nat.eqb n 92 then [BSL; BSL]
  else if Nat.eqb n 10 then [BSL; "n"%char]
  else if Nat.eqb n 13 then [BSL; "r"%char]
  else if Nat.eqb n 9 then [BSL; "t"%char]
  else if Nat.eqb n 8 then [BSL; "b"%char]
  else if Nat.eqb n 12 then [BSL; "f"%char]
  else if Nat.leb 32 n && Nat.leb n 126 then [c]
  else [BSL; "u"; "0"; "0"; hexdigit (n / 16); hexdigit (n mod 16)]%char.

Definition encode_string (s : string) : text :=
  (DQ :: flat_map escape_char (chars s)) ++ [DQ].

Fixpoint uint_text (d : Decimal.uint) : text :=
  match d with
  | Decimal.Nil => []
  | Decimal.D0 r => "0"%char :: uint_text r
  | Decimal.D1 r => "1"%char :: uint_text r
  | Decimal.D2 r => "2"%char :: uint_text r
  | Decimal.D3 r => "3"%char :: uint_text r
  | Decimal.D4 r => "4"%char :: uint_text r
  | Decimal.D5 r => "5"%char :: uint_text r
  | Decimal.D6 r => "6"%char :: uint_text r
  | Decimal.D7 r => "7"%char :: uint_text r
  | Decimal.D8 r => "8"%char :: uint_text r
  | Decimal.D9 r => "9"%char :: uint_text r
  end.

(** [int.__repr__] *)
Definition int_repr (z : Z) : text :=
  match Z.to_int z with
  | Decimal.Pos d => uint_text d
  | Decimal.Neg d => "-"%char :: uint_text d
  end.

Definition bool_text (b : bool) : text :=
  chars (if b then "true" else "false").

(** The encoder turns a key that is not a [str] into one. *)
Definition key_str (k : pykey) : string :=
  match k with
  | KStr s => s
  | KInt z => str (int_repr z)
  | KBool b => str (bool_text b)
  | KNone => "null"
  end.

(** ['\n' + indent * level] with [indent = "  "] *)
Definition newline_indent (lvl : nat) : text :=
  LF :: repeat " "%char (2 * lvl).

(** [sep.join(xs)] on texts *)
Fixpoint join (sep : text) (xs : list text) : text :=
  match xs with
  | [] => []
  | [x] => x
  | x :: r => x ++ sep ++ join sep r
  end.

Fixpoint encode (lvl : nat) (v : json) : text :=
  match v with
  | JNull => chars "null"
  | JBool b => bool_text b
  | JInt z => int_repr z
  | JStr s => encode_string s
  | JList [] => chars "[]"
  | JList l =>
      "["%char :: newline_indent (S lvl)
        ++ join (","%char :: newline_indent (S lvl)) (map (encode (S lvl)) l)
        ++ newline_indent lvl ++ ["]"%char]
  | JDict [] => chars "{}"
  | JDict d =>
      "{"%char :: newline_indent (S lvl)
        ++ join (","%char :: newline_indent (S lvl))
             (map (fun kv : pykey * json =>
                     let (k, x) := kv in
                     encode_string (key_str k) ++ chars ": " ++ encode (S lvl) x) d)
        ++ newline_indent lvl ++ ["}"%char]
  end.

(** [json.dumps(v, indent=2)] *)
Definition json_dumps (v : json) : string := str (encode 0 v).

(** ** json.load: the decoder *)

Definition is_ws (c : ascii) : bool :=
  let n := code c in
  Nat.eqb n 32 || Nat.eqb n 9 || Nat.eqb n 10 || Nat.eqb n 13.

(** The whitespace regular expression [[ \t\n\r]*]. *)
Fixpoint skip_ws (t : text) : text :=
  match t with
  | c :: r => if is_ws c then skip_ws r else t
  | [] => []
  end.

Definition hexval (c : ascii) : option nat :=
  let n := code c in
  if Nat.leb 48 n && Nat.leb n 57 then Some (n - 48)
  else if Nat.leb 97 n && Nat.leb n 102 then Some (n - 87)
  else if Nat.leb 65 n && Nat.leb n 70 then Some (n - 55)
  else None.

Definition hex4 (a b c d : ascii) : option nat :=
  match hexval a, hexval b, hexval c, hexval d with
  | Some x, Some y, Some z, Some w => Some (((x * 16 + y) * 16 + z) * 16 + w)
  | _, _, _, _ => None
  end.

(** The table [BACKSLASH] of the one-letter escapes. *)
Definition unescape (e : ascii) : option ascii :=
  let n := code e in
  if Nat.eqb n 34 then Some DQ
  else if Nat.eqb n 92 then Some BSL
  else if Nat.eqb n 47 then Some "/"%char
  else if Nat.eqb n 98 then Some "008"%char
  else if Nat.eqb n 102 then Some "012"%char
  else if Nat.eqb n 110 then Some LF
  else if Nat.eqb n 114 then Some "013"%char
  else if Nat.eqb n 116 then Some "009"%char
  else None.

Definition push_char (c : ascii) (o : option (string * text)) : option (string * text) :=
  match o with
  | Some (s, r) => Some (String c s, r)
  | None => None
  end.

(** [scanstring] in strict mode, from the character after the opening
    quote: the string and the text after the closing quote.  An escape
    [\uXXXX] of a code point above 255 is outside the model. *)
Fixpoint scanstring (t : text) : option (string * text) :=
  match t with
  | [] => None
  | c :: r =>
      if Nat.eqb (code c) 34 then Some (EmptyString, r)
      else if Nat.eqb (code c) 92 then
        match r with
        | [] => None
        | e :: r1 =>
            if Nat.eqb (code e) 117 then
              match r1 with
              | h1 :: h2 :: h3 :: h4 :: r2 =>
                  match hex4 h1 h2 h3 h4 with
                  | Some n =>
                      if Nat.ltb n 256 then push_char (ascii_of_nat n) (scanstring r2)
                      else None
                  | None => None
                  end
              | _ => None
              end
            else
              match unescape e with
              | Some x => push_char x (scanstring r1)
              | None => None
              end
        end
      else if Nat.ltb (code c) 32 then None
      else push_char c (scanstring r)
  end.

Definition digit_of (c : ascii) : option (Decimal.uint -> Decimal.uint) :=
  match code c with
  | 48 => Some Decimal.D0 | 49 => Some Decimal.D1 | 50 => Some Decimal.D2
  | 51 => Some Decimal.D3 | 52 => Some Decimal.D4 | 53 => Some Decimal.D5
  | 54 => Some Decimal.D6 | 55 => Some Decimal.D7 | 56 => Some Decimal.D8
  | 57 => Some Decimal.D9 | _ => None
  end.

Definition is_digit (c : ascii) : bool :=
  match digit_of c with Some _ => true | None => false end.

(** The longest run of digits [\d*] and what follows it. *)
Fixpoint scan_digits (t : text) : Decimal.uint * text :=
  match t with
  | [] => (Decimal.Nil, [])
  | c :: r =>
      match digit_of c with
      | Some mk => let (d, r') := scan_digits r in (mk d, r')
      | None => (Decimal.Nil, t)
      end
  end.

(** Whether a fraction [\.\d+] or an exponent [[eE][-+]?\d+] follows the
    integer part: the number is then a float. *)
Definition float_follows (t : text) : bool :=
  match t with
  | c :: r =>
      if Nat.eqb (code c) 46 then
        match r with x :: _ => is_digit x | [] => false end
      else if Nat.eqb (code c) 101 || Nat.eqb (code c) 69 then
        match r with
        | x :: r' =>
            is_digit x
            || ((Nat.eqb (code x) 43 || Nat.eqb (code x) 45)
                && match r' with y :: _ => is_digit y | [] => false end)
        | [] => false
        end
      else false
  | [] => false
  end.

(** The integer part of [NUMBER_RE]: a single [0], or a digit from 1 to 9
    followed by the longest run of digits. *)
Definition scan_uint (t : text) : option (Decimal.uint * text) :=
  match t with
  | c :: r =>
      if Nat.eqb (code c) 48 then Some (Decimal.D0 Decimal.Nil, r)
      else if is_digit c then Some (scan_digits t)
      else None
  | [] => None
  end.

Definition scan_number (t : text) : option (json * text) :=
  let (neg, t1) :=
    match t with
    | c :: r => if Nat.eqb (code c) 45 then (true, r) else (false, t)
    | [] => (false, t)
    end in
  match scan_uint t1 with
  | Some (d, r) =>
      if float_follows r then None
      else Some (JInt (if neg then - Z.of_uint d else Z.of_uint d)%Z, r)
  | None => None
  end.

(** [t] starts with the letters of [w]; what follows them. *)
Fixpoint strip_prefix (w t : text) : option text :=
  match w, t with
  | [], _ => Some t
  | a :: w', c :: t' => if Ascii.eqb a c then strip_prefix w' t' else None
  | _ :: _, [] => None
  end.

Definition push_item {A} (x : A) (o : option (list A * text)) : option (list A * text) :=
  match o with
  | Some (xs, r) => Some (x :: xs, r)
  | None => None
  end.

(** [scan_once], [JSONArray] and [JSONObject].  The recursion of the
    scanner is on a fuel [n]; twice the length of the text is enough.
    [scan_items] starts at a value, [scan_pairs] after the opening quote of
    a key. *)
Fixpoint scan_once (n : nat) (t : text) {struct n} : option (json * text) :=
  match n with
  | O => None
  | S n =>
      match t with
      | [] => None
      | c :: r =>
          if Nat.eqb (code c) 34 then
            match scanstring r with
            | Some (s, r') => Some (JStr s, r')
            | None => None
            end
          else if Nat.eqb (code c) 123 then
            match skip_ws r with
            | c' :: r' =>
                if Nat.eqb (code c') 125 then Some (JDict [], r')
                else if Nat.eqb (code c') 34 then
                  match scan_pairs n r' with
                  | Some (pairs, r'') => Some (JDict (dict_set_all pairs []), r'')
                  | None => None
                  end
                else None
            | [] => None
            end
          else if Nat.eqb (code c) 91 then
            match skip_ws r with
            | c' :: r' =>
                if Nat.eqb (code c') 93 then Some (JList [], r')
                else
                  match scan_items n (c' :: r') with
                  | Some (vs, r'') => Some (JList vs, r'')
                  | None => None
                  end
            | [] => None
            end
          else
            match strip_prefix (chars "null") t with
            | Some r' => Some (JNull, r')
            | None =>
                match strip_prefix (chars "true") t with
                | Some r' => Some (JBool true, r')
                | None =>
                    match strip_prefix (chars "false") t with
                    | Some r' => Some (JBool false, r')
                    | None => scan_number t
                    end
                end
            end
      end
  end
with scan_items (n : nat) (t : text) {struct n} : option (list json * text) :=
  match n with
  | O => None
  | S n =>
      match scan_once n t with
      | Some (v, r) =>
          match skip_ws r with
          | c :: r' =>
              if Nat.eqb (code c) 93 then Some ([v], r')
              else if Nat.eqb (code c) 44 then push_item v (scan_items n (skip_ws r'))
              else None
          | [] => None
          end
      | None => None
      end
  end
with scan_pairs (n : nat) (t : text) {struct n} : option (pydict * text) :=
  match n with
  | O => None
  | S n =>
      match scanstring t with
      | Some (k, r) =>
          match skip_ws r with
          | c :: r1 =>
              if Nat.eqb (code c) 58 then
                match scan_once n (skip_ws r1) with
                | Some (v, r2) =>
                    match skip_ws r2 with
                    | c2 :: r3 =>
                        if Nat.eqb (code c2) 125 then Some ([(KStr k, v)], r3)
                        else if Nat.eqb (code c2) 44 then
                          match skip_ws r3 with
                          | q :: r4 =>
                              if Nat.eqb (code q) 34
                              then push_item (KStr k, v) (scan_pairs n r4)
                              else None
                          | [] => None
                          end
                        else None
                    | [] => None
                    end
                | None => None
                end
              else None
          | [] => None
          end
      | None => None
      end
  end.

(** [json.loads]: leading whitespace, one value, trailing whitespace. *)
Definition json_loads (s : string) : option json :=
  let t := skip_ws (chars s) in
  match scan_once (2 * length t + 1) t with
  | Some (v, r) =>
      match skip_ws r with
      | [] => Some v
      | _ :: _ => None
      end
  | None => None
  end.

(** Concrete JSON texts below are written with apostrophes for the double
    quotes. *)
Fixpoint sq (s : string) : string :=
  match s with
  | EmptyString => EmptyString
  | String c r => String (if Nat.eqb (code c) 39 then DQ else c) (sq r)
  end.

(** ** uuid.uuid4 and str(UUID) *)

(** [UUID(bytes=os.urandom(16), version=4)]: the 128-bit integer of the
    random bytes with the variant and version bits set.  [rnd] is the
    integer the sixteen random bytes denote. *)
Definition uuid4 (rnd : N) : N :=
  let i := N.land rnd (2 ^ 128 - 1) in
  let i := N.ldiff i (N.shiftl 0xc000 48) in
  let i := N.lor i (N.shiftl 0x8000 48) in
  let i := N.ldiff i (N.shiftl 0xf000 64) in
  N.lor i (N.shiftl 4 76).

(** ['%032x' % i] *)
Definition hex32 (i : N) : text :=
  map (fun k => hexdigit (N.to_nat (N.land (N.shiftr i (4 * N.of_nat (31 - k))) 15)))
      (seq 0 32).

(** [str(u)]: the hex digits in groups of 8, 4, 4, 4 and 12. *)
Definition uuid_str (i : N) : string :=
  let h := hex32 i in
  let dash := "-"%char in
  str (take 8 h ++ dash :: take 4 (drop 8 h) ++ dash :: take 4 (drop 12 h)
         ++ dash :: take 4 (drop 16 h) ++ dash :: drop 20 h).

(** ** pathlib.Path *)

(** A path is the tuple [Path.parts]: the root, if any, then the names. *)
Abbreviation path := (list string).

Fixpoint split_slash (cur : text) (t : text) : list text :=
  match t with
  | [] => [rev cur]
  | c :: r =>
      if Nat.eqb (code c) 47 then rev cur :: split_slash [] r
      else split_slash (c :: cur) r
  end.

Fixpoint leading_slashes (t : text) : nat :=
  match t with
  | c :: r => if Nat.eqb (code c) 47 then S (leading_slashes r) else 0
  | [] => 0
  end.

Definition is_name (t : text) : bool :=
  match t with
  | [] => false
  | [c] => negb (Nat.eqb (code c) 46)
  | _ => true
  end.

(** [Path(s).parts]: two leading slashes are the root ["//"], one or more
    than two the root ["/"]; empty names and ["."] are dropped. *)
Definition parse_path (s : string) : path :=
  let t := chars s in
  let root :=
    match leading_slashes t with
    | 0 => []
    | 2 => ["//"]
    | _ => ["/"]
    end in
  root ++ map str (filter (fun x => is_name x = true) (split_slash [] t)).

Definition is_root (s : string) : bool := String.eqb s "/" || String.eqb s "//".

Definition is_absolute (p : path) : bool :=
  match p with
  | r :: _ => is_root r
  | [] => false
  end.

(** [p / s] *)
Definition joinpath (p : path) (s : string) : path :=
  let q := parse_path s in
  if is_absolute q then q else p ++ q.

(** The current directory and the roots. *)
Definition is_anchor (p : path) : bool :=
  match p with
  | [] => true
  | [r] => is_root r
  | _ => false
  end.

(** [p.parent] *)
Definition parent (p : path) : path :=
  if is_anchor p then p else removelast p.

(** ** Exceptions and results *)

Inductive exn :=
| FileNotFoundError (p : path)
| NotADirectoryError (p : path)
| IsADirectoryError (p : path)
| FileExistsError (p : path)
| JSONDecodeError
| KeyError (k : string)
| TypeError (msg : string)
| ValueError (msg : string).

Inductive result (A : Type) :=
| Ok (a : A)
| Raise (e : exn).
Arguments Ok {A} a.
Arguments Raise {A} e.

(** ** The filesystem *)

Inductive node :=
| Dir
| File (content : string).

Abbreviation FS := (gmap path node).

Definition node_at (fs : FS) (p : path) : option node :=
  if is_anchor p then Some Dir else fs !! p.

(** Path resolution: every directory on the way to [cur ++ rest] has to
    exist and be a directory. *)
Inductive resolved :=
| Found (n : node)
| ENOENT
| ENOTDIR.

Fixpoint walk (fs : FS) (cur rest : path) : resolved :=
  match rest with
  | [] =>
      match node_at fs cur with
      | Some n => Found n
      | None => ENOENT
      end
  | x :: rest' =>
      match node_at fs cur with
      | Some Dir => walk fs (cur ++ [x]) rest'
      | Some (File _) => ENOTDIR
      | None => ENOENT
      end
  end.

Definition stat (fs : FS) (p : path) : resolved := walk fs [] p.

(** What the program does to the filesystem, in order. *)
Inductive event :=
| EvRead (p : path)
| EvMkdir (p : path)
| EvCreate (p : path)
| EvWrite (p : path) (data : string)
| EvRename (src dst : path).

Record world := World { fs : FS; trace : list event }.

Definition apply_event (f : FS) (e : event) : FS :=
  match e with
  | EvRead _ => f
  | EvMkdir p => <[p := Dir]> f
  | EvCreate p => <[p := File ""]> f
  | EvWrite p data => <[p := File data]> f
  | EvRename src dst =>
      match f !! src with
      | Some n => <[dst := n]> (delete src f)
      | None => f
      end
  end.


(** ** The monad of the script: a world and exceptions *)

Definition M (A : Type) : Type := world -> result A * world.

Definition ret {A} (a : A) : M A := fun w => (Ok a, w).

Definition raise {A} (e : exn) : M A := fun w => (Raise e, w).

Definition bind {A B} (m : M A) (k : A -> M B) : M B :=
  fun w =>
    match m w with
    | (Ok a, w') => k a w'
    | (Raise e, w') => (Raise e, w')
    end.

Notation "x <- m ;; k" := (bind m (fun x => k))
  (at level 100, m at next level, right associativity).
Notation "m ;;; k" := (bind m (fun _ => k))
  (at level 100, right associativity).

Definition lift {A} (r : result A) : M A := fun w => (r, w).

Definition emit (e : event) : M unit :=
  fun w => (Ok tt, World (apply_event (fs w) e) (trace w ++ [e])).

Definition get_fs : M FS := fun w => (Ok (fs w), w).

(** [os.mkdir(p)] *)
Definition os_mkdir (p : path) : M unit :=
  f <- get_fs ;;
  match stat f (parent p) with
  | ENOENT => raise (FileNotFoundError p)
  | ENOTDIR | Found (File _) => raise (NotADirectoryError p)
  | Found Dir =>
      match node_at f p with
      | Some _ => raise (FileExistsError p)
      | None => emit (EvMkdir p)
      end
  end.

Definition is_dir (f : FS) (p : path) : bool :=
  match stat f p with
  | Found Dir => true
  | _ => false
  end.

(** [p.mkdir(parents=False, exist_ok=True)]: an [OSError] other than
    [FileNotFoundError] is dropped when [p] is a directory. *)
Definition mkdir_exist_ok (p : path) : M unit :=
  fun w =>
    match os_mkdir p w with
    | (Raise (FileNotFoundError q), w') => (Raise (FileNotFoundError q), w')
    | (Raise e, w') => if is_dir (fs w') p then (Ok tt, w') else (Raise e, w')
    | r => r
    end.

(** [p.mkdir(parents=True, exist_ok=True)]: on [FileNotFoundError] the
    parent is made first, unless [p] is its own parent.  The recursion
    follows [p.parent], at most [length p] times. *)
Fixpoint mkdir_parents (n : nat) (p : path) : M unit :=
  fun w =>
    match os_mkdir p w with
    | (Raise (FileNotFoundError q), w') =>
        match n with
        | S n' =>
            if is_anchor p then (Raise (FileNotFoundError q), w')
            else (mkdir_parents n' (parent p) ;;; mkdir_exist_ok p) w'
        | O => (Raise (FileNotFoundError q), w')
        end
    | (Raise e, w') => if is_dir (fs w') p then (Ok tt, w') else (Raise e, w')
    | r => r
    end.

Definition Path_mkdir (p : path) : M unit := mkdir_parents (length p) p.

(** [open(p, "w")]: the file is created, or cut to length zero. *)
Definition open_w (p : path) : M unit :=
  f <- get_fs ;;
  if is_anchor p then raise (IsADirectoryError p)
  else
    match stat f (parent p) with
    | ENOENT => raise (FileNotFoundError p)
    | ENOTDIR | Found (File _) => raise (NotADirectoryError p)
    | Found Dir =>
        match node_at f p with
        | Some Dir => raise (IsADirectoryError p)
        | _ => emit (EvCreate p)
        end
    end.

(** What [f.write] leaves in the file when [f] is closed. *)
Definition write_text (p : path) (data : string) : M unit := emit (EvWrite p data).

(** [open(p, "r")] followed by [f.read()] *)
Definition read_text (p : path) : M string :=
  f <- get_fs ;;
  match stat f p with
  | ENOENT => raise (FileNotFoundError p)
  | ENOTDIR => raise (NotADirectoryError p)
  | Found Dir => raise (IsADirectoryError p)
  | Found (File c) => emit (EvRead p) ;;; ret c
  end.

(** [json.load(f)] on the file at [p] *)
Definition json_load (p : path) : M json :=
  c <- read_text p ;;
  match json_loads c with
  | Some v => ret v
  | None => raise JSONDecodeError
  end.

(** [json.dump(v, f, indent=2)] into the file opened at [p] *)
Definition json_dump (v : json) (p : path) : M unit :=
  write_text p (json_dumps v).

(** ** dict.update *)

Definition nat_text (n : nat) : string := str (uint_text (Nat.to_uint n)).

Definition update_length_message (i len : nat) : string :=
  "dictionary update sequence element #" ++ nat_text i ++ " has length "
    ++ nat_text len ++ "; 2 is required".

Definition update_sequence_message (i : nat) : string :=
  "cannot convert dictionary update sequence element #" ++ nat_text i
    ++ " to a sequence".

(** Iterating a dict gives its keys. *)
Definition key_json (k : pykey) : json :=
  match k with
  | KStr s => JStr s
  | KInt z => JInt z
  | KBool b => JBool b
  | KNone => JNull
  end.

(** The key object of a value; lists and dicts are unhashable. *)
Definition hash_key (v : json) : result pykey :=
  match v with
  | JStr s => Ok (KStr s)
  | JInt z => Ok (KInt z)
  | JBool b => Ok (KBool b)
  | JNull => Ok KNone
  | JList _ => Raise (TypeError "unhashable type: 'list'")
  | JDict _ => Raise (TypeError "unhashable type: 'dict'")
  end.

(** Element [i] of an update sequence has to be a sequence of two items. *)
Definition as_pair (i : nat) (x : json) : result (json * json) :=
  match x with
  | JList [k; v] => Ok (k, v)
  | JList l => Raise (ValueError (update_length_message i (length l)))
  | JStr s =>
      match chars s with
      | [a; b] => Ok (JStr (String a EmptyString), JStr (String b EmptyString))
      | t => Raise (ValueError (update_length_message i (length t)))
      end
  | JDict [(k1, _); (k2, _)] => Ok (key_json k1, key_json k2)
  | JDict d => Raise (ValueError (update_length_message i (length d)))
  | JNull | JBool _ | JInt _ => Raise (TypeError (update_sequence_message i))
  end.

Fixpoint update_pairs (i : nat) (l : list json) (d : pydict) : result pydict :=
  match l with
  | [] => Ok d
  | x :: r =>
      match as_pair i x with
      | Ok (k, v) =>
          match hash_key k with
          | Ok k' => update_pairs (S i) r (dict_set k' v d)
          | Raise e => Raise e
          end
      | Raise e => Raise e
      end
  end.

(** [d.update(other)] for a value [other] that came out of [json.load]:
    a dict is merged, anything else is read as a sequence of pairs. *)
Definition dict_update (d : pydict) (other : json) : result pydict :=
  match other with
  | JDict o => Ok (dict_set_all o d)
  | JList l => update_pairs 0 l d
  | JStr s =>
      match s with
      | EmptyString => Ok d
      | String _ _ => Raise (ValueError (update_length_message 0 1))
      end
  | JNull => Raise (TypeError "'NoneType' object is not iterable")
  | JBool _ => Raise (TypeError "'bool' object is not iterable")
  | JInt _ => Raise (TypeError "'int' object is not iterable")
  end.

(** ** scripts/send_task.py *)

(** What one call draws from its environment: the integer of
    [os.urandom(16)] inside [uuid.uuid4()], and the text of
    [datetime.utcnow().isoformat()]. *)
Record env := Env { urandom16 : N; utcnow_isoformat : string }.

(** The project configuration, as far as the script looks into it. *)
Record messaging_config := MessagingConfig { base_dir : option string }.

Record config := Config {
  enabled_roles : option (list string);
  messaging : option messaging_config
}.

(** [d[k]] for a value that is a [str] *)
Definition getitem_str (k : string) (d : pydict) : M string :=
  match dict_get (KStr k) d with
  | Some (JStr s) => ret s
  | _ => raise (KeyError k)
  end.

(** [task["payload"].update(payload)] *)
Definition update_payload (task : pydict) (payload : json) : M pydict :=
  match dict_get (KStr "payload") task with
  | Some (JDict p) =>
      p' <- lift (dict_update p payload) ;;
      ret (dict_set (KStr "payload") (JDict p') task)
  | _ => raise (KeyError "payload")
  end.

Definition create_task_json (e : env) (project role description : string)
    (payload_file : option string) : M pydict :=
  let task_id := uuid_str (uuid4 (urandom16 e)) in
  let timestamp := utcnow_isoformat e in
  let task :=
    [ (KStr "task_id", JStr task_id);
      (KStr "timestamp", JStr timestamp);
      (KStr "from", JStr "user");
      (KStr "to", JStr role);
      (KStr "type", JStr "request");
      (KStr "project", JStr project);
      (KStr "payload", JDict [ (KStr "description", JStr description) ]) ] in
  match payload_file with
  | Some f =>
      if String.eqb f "" then ret task
      else
        payload <- json_load (parse_path f) ;;
        update_payload task payload
  | None => ret task
  end.

Definition invalid_role_message (role : string) (roles : list string) : string :=
  "Invalid role '" ++ role ++ "'. Must be one of: " ++ String.concat ", " roles.

Section Producer.

(** [orchestrator.utils.config_loader.load_config_by_project_name]: the
    loader reads the configuration of a project below [config_dir], or
    raises. *)
Variable load_config_by_project_name : string -> string -> FS -> result config.

Definition load_config (project config_dir : string) : M config :=
  f <- get_fs ;; lift (load_config_by_project_name project config_dir f).

(** [config["messaging"]["base_dir"]] *)
Definition messaging_base_dir (c : config) : M string :=
  match messaging c with
  | Some m =>
      match base_dir m with
      | Some d => ret d
      | None => raise (KeyError "base_dir")
      end
  | None => raise (KeyError "messaging")
  end.

Definition send_task (e : env) (project role description : string)
    (payload_file : option string) (config_dir : string) : M string :=
  config <- load_config project config_dir ;;
  let roles := default [] (enabled_roles config) in
  if negb (bool_decide (role ∈ roles)) then
    raise (ValueError (invalid_role_message role roles))
  else
    task <- create_task_json e project role description payload_file ;;
    base <- messaging_base_dir config ;;
    let tasks_dir := joinpath (parse_path base) "tasks" in
    task_id <- getitem_str "task_id" task ;;
    let task_file := joinpath tasks_dir (task_id ++ ".json") in
    Path_mkdir tasks_dir ;;;
    open_w task_file ;;;
    json_dump (JDict task) task_file ;;;
    getitem_str "task_id" task.

End Producer.

(** ** Auxiliary notions for the proofs *)








(** A value as [json.load] builds it: every dict has [str] keys, each of
    them once. *)
#[local] Unset Elimination Schemes.
#[local] Set Elimination Schemes.




Definition no_slash (c : ascii) : Prop := Nat.eqb (code c) 47 = false.


(** The events of a run of [m] from [w]: the trace grows by [tr], and the
    filesystem is the one [tr] leaves. *)
Definition grows_by (w w' : world) (tr : list event) : Prop :=
  trace w' = trace w ++ tr /\ fs w' = fold_left apply_event tr (fs w).

Definition is_mkdir (e : event) : Prop := exists p, e = EvMkdir p.

(** What a successful [mkdir] of [p] from [w] leaves in [w']. *)
Definition made_dir (p : path) (w w' : world) : Prop :=
  stat (fs w') p = Found Dir
  /\ (exists tr, grows_by w w' tr /\ Forall is_mkdir tr)
  /\ (forall q, ~ q `prefix_of` p -> fs w' !! q = fs w !! q).

(** No file stands where [p] or a directory above it has to be. *)
Definition creatable (f : FS) (p : path) : Prop :=
  forall q c, q `prefix_of` p -> node_at f q <> Some (File c).

(** The record [create_task_json] builds, with [p] as its payload. *)
Definition task_id_of (e : env) : string := uuid_str (uuid4 (urandom16 e)).

Definition task_with_payload (e : env) (project role : string) (p : pydict) : pydict :=
  [ (KStr "task_id", JStr (task_id_of e));
    (KStr "timestamp", JStr (utcnow_isoformat e));
    (KStr "from", JStr "user");
    (KStr "to", JStr role);
    (KStr "type", JStr "request");
    (KStr "project", JStr project);
    (KStr "payload", JDict p) ].

(** The directory and the file [send_task] writes to, for the configured
    base directory [b]. *)
Definition tasks_dir_of (b : string) : path := parse_path b ++ ["tasks"].

Definition task_file_of (b : string) (e : env) : path :=
  tasks_dir_of b ++ [(task_id_of e ++ ".json")%string].

Definition configured_base_dir (c : config) : option string :=
  match messaging c with
  | Some m => base_dir m
  | None => None
  end.

Definition roles_of (c : config) : list string := default [] (enabled_roles c).

Definition has_key (k : pykey) (d : pydict) : Prop := exists v, dict_get k d = Some v.

(** The world after zero or one read of a file. *)
Definition only_read (w w' : world) : Prop :=
  fs w' = fs w /\ (trace w' = trace w \/ exists p, trace w' = trace w ++ [EvRead p]).

(** The loader of the script is a parameter of [send_task]. *)
Abbreviation loader := (string -> string -> FS -> result config).

(** What [send_task] does once the task is built: make the directory, open
    the file, dump the record, return the id. *)
Definition write_task (b : string) (e : env) (task : pydict) : M string :=
  Path_mkdir (tasks_dir_of b) ;;;
  open_w (task_file_of b e) ;;;
  json_dump (JDict task) (task_file_of b e) ;;;
  ret (task_id_of e).

(** The exceptions the filesystem calls raise. *)
Definition is_os_error (x : exn) : Prop :=
  match x with
  | FileNotFoundError _ | NotADirectoryError _ | IsADirectoryError _
  | FileExistsError _ => True
  | _ => False
  end.

(** ** A concrete project, for the examples *)

Definition demo_config : config :=
  Config (Some ["architect"; "builder"]) (Some (MessagingConfig (Some "msgs/demo"))).

(** A loader that knows the project [demo] only. *)
Definition demo_loader : loader :=
  fun project config_dir f =>
    if String.eqb project "demo" then Ok demo_config
    else Raise (FileNotFoundError [config_dir; String.append project ".yaml"]).

Definition demo_env : env :=
  Env 0x0123456789abcdef0123456789abcdef "2024-01-02T03:04:05.678901".

Definition demo_id : string := "01234567-89ab-4def-8123-456789abcdef".

Definition demo_file : path := ["msgs"; "demo"; "tasks"; String.append demo_id ".json"].

Definition empty_world : world := World ∅ [].

(** A world with a payload file that redefines [description]. *)
Definition payload_world : world :=
  World {[ ["p.json"] := File (sq "{'description': 'other', 'priority': 3}") ]} [].

(** A world where a record of the same id is already in place. *)
Definition taken_world : world :=
  World (<[demo_file := File "old record"]>
           (<[["msgs"; "demo"; "tasks"] := Dir]>
              (<[["msgs"; "demo"] := Dir]> {[ ["msgs"] := Dir ]}))) [].


Definition demo_record : string :=
  json_dumps (JDict (task_with_payload demo_env "demo" "builder"
                       [(KStr "description", JStr "do it")])).

(** ** The claim operation of the Durable Mailbox *)

Module Mailbox.

(** The Durable Mailbox is the component the producer writes for; it is
    not part of [scripts/send_task.py].  Its [claim] operation is taken
    from section 4.1 of the specification. *)

(** Modelled from the spec: the layout [<base_dir>/tasks/pending/] with
    files named [<task_id>.json]; the mailbox code is missing. *)
Definition pending_file (base : path) (task_id : string) : path :=
  base ++ ["tasks"; "pending"; String.append task_id ".json"].

(** Modelled from the spec: the layout
    [<base_dir>/tasks/claimed/<worker_id>/]; the mailbox code is missing. *)
Definition claimed_file (base : path) (worker_id task_id : string) : path :=
  base ++ ["tasks"; "claimed"; worker_id; String.append task_id ".json"].

(** Modelled from the spec: the atomic rename of the filesystem, the only
    primitive the mailbox relies on.  It fails when [src] is not there and,
    failing closed, when [dst] is. *)
Definition rename (f : FS) (src dst : path) : option FS :=
  match f !! src, f !! dst with
  | Some n, None => Some (<[dst := n]> (delete src f))
  | _, _ => None
  end.

Inductive outcome :=
| Claimed
| AlreadyClaimedError.

(** Modelled from the spec: [claim(role, task_id, worker_id)] of the
    Durable Mailbox, which is missing from the sources.  One rename moves
    the record from the pending directory to the directory of the worker;
    the caller whose rename fails observes [AlreadyClaimedError]. *)
Definition claim (base : path) (f : FS) (task_id worker_id : string) : outcome * FS :=
  match rename f (pending_file base task_id) (claimed_file base worker_id task_id) with
  | Some f' => (Claimed, f')
  | None => (AlreadyClaimedError, f)
  end.

(** One call of a schedule: who claims what. *)
Record call := Call { call_task : string; call_worker : string }.

(** Modelled from the spec: concurrent callers of [claim].  A rename is
    atomic, so a concurrent execution is a schedule: the calls in the order
    their renames take effect.  [run] gives the outcomes of the calls of a
    schedule from the mailbox [f]. *)
Fixpoint run (base : path) (f : FS) (calls : list call) : list outcome :=
  match calls with
  | [] => []
  | c :: rest =>
      let (r, f') := claim base f (call_task c) (call_worker c) in
      r :: run base f' rest
  end.

End Mailbox.

(** * Examples *)

Example encode_demo :
  encode 0 (JDict [(KStr "a", JInt (-12)); (KStr "b", JList [JStr "xy"; JNull]); (KInt 1, JDict [])])
  = chars "{" ++ [LF] ++ chars "  " ++ [DQ] ++ chars "a" ++ [DQ] ++ chars ": -12," ++ [LF]
      ++ chars "  " ++ [DQ] ++ chars "b" ++ [DQ] ++ chars ": [" ++ [LF]
      ++ chars "    " ++ [DQ] ++ chars "xy" ++ [DQ] ++ chars "," ++ [LF]
      ++ chars "    null" ++ [LF] ++ chars "  ]," ++ [LF]
      ++ chars "  " ++ [DQ] ++ chars "1" ++ [DQ] ++ chars ": {}" ++ [LF] ++ chars "}".
Proof. reflexivity. Qed.

Example loads_demo :
  json_loads (sq "{ 'k' : [1, -20, true, null, 'a/A'], 'k': {}, 'z':''}")
  = Some (JDict [(KStr "k", JDict []); (KStr "z", JStr "")]).
Proof. vm_compute. reflexivity. Qed.

Example loads_float : json_loads "[1.5]" = None.
Proof. reflexivity. Qed.

Example loads_trailing : json_loads "[1,]" = None.
Proof. reflexivity. Qed.

Example loads_dumps_demo :
  let v := JDict [(KStr "a", JList [JInt 0; JInt (-7); JStr "x y"; JList []]);
                  (KStr "b", JDict [(KStr "c", JBool false)])] in
  json_loads (json_dumps v) = Some v.
Proof. vm_compute. reflexivity. Qed.

Example uuid_demo : task_id_of demo_env = demo_id.
Proof. reflexivity. Qed.

Example parse_path_demo :
  parse_path "/a//b/./c/" = ["/"; "a"; "b"; "c"]
  /\ parse_path "//x" = ["//"; "x"]
  /\ parse_path "msgs/demo" = ["msgs"; "demo"]
  /\ parse_path "." = [].
Proof. by vm_compute. Qed.

Example joinpath_demo :
  joinpath ["msgs"; "demo"] "tasks" = ["msgs"; "demo"; "tasks"]
  /\ joinpath ["msgs"; "demo"] "/tmp/x" = ["/"; "tmp"; "x"].
Proof. by vm_compute. Qed.

(** [d.update] with a JSON array reads its elements as pairs; [True] and
    [1] are the same key. *)
Example dict_update_pairs_demo :
  match json_loads (sq "[['a', 1], 'xy', [true, 2], [1, 3]]") with
  | Some v => dict_update [(KStr "description", JStr "do it")] v
  | None => Raise JSONDecodeError
  end
  = Ok [(KStr "description", JStr "do it"); (KStr "a", JInt 1);
        (KStr "x", JStr "y"); (KBool true, JInt 3)].
Proof. by vm_compute. Qed.

Example dict_update_scalar_demo :
  dict_update [] (JInt 3) = Raise (TypeError "'int' object is not iterable")
  /\ dict_update [] (JStr "ab")
     = Raise (ValueError
                "dictionary update sequence element #0 has length 1; 2 is required").
Proof. by vm_compute. Qed.

Example send_task_demo :
  fst (send_task demo_loader demo_env "demo" "builder" "do it" None "config" empty_world)
  = Ok demo_id
  /\ trace (snd (send_task demo_loader demo_env "demo" "builder" "do it" None "config"
                   empty_world))
     = [EvMkdir ["msgs"]; EvMkdir ["msgs"; "demo"]; EvMkdir ["msgs"; "demo"; "tasks"];
        EvCreate demo_file; EvWrite demo_file demo_record].
Proof. by vm_compute. Qed.

(** A file where the tasks directory has to be: the mkdir fails. *)
Example send_task_blocked_demo :
  fst (send_task demo_loader demo_env "demo" "builder" "do it" None "config"
         (World {[ ["msgs"] := File "x" ]} []))
  = Raise (NotADirectoryError ["msgs"; "demo"; "tasks"]).
Proof. by vm_compute. Qed.

(** * Properties *)

(** ** Text *)

Lemma chars_str (t : text) : chars (str t) = t.
Proof. apply list_ascii_of_string_of_list_ascii. Qed.

Lemma str_chars (s : string) : str (chars s) = s.
Proof. apply string_of_list_ascii_of_string. Qed.

Lemma chars_app (s1 s2 : string) : chars (s1 ++ s2) = chars s1 ++ chars s2.
Proof. induction s1 as [|c s1 IH]; simpl; [done | by rewrite IH]. Qed.


(** ** The decoder reads back what the encoder writes *)




(** *** Integers *)









#[local] Arguments float_follows : simpl never.


(** *** Dicts with distinct [str] keys *)








(** *** Whitespace and first characters *)






(** *** Containers *)







Lemma scan_items_S (n : nat) (t : text) :
  scan_items (S n) t
  = match scan_once n t with
    | Some (v, r) =>
        match skip_ws r with
        | c :: r' =>
            if Nat.eqb (code c) 93 then Some ([v], r')
            else if Nat.eqb (code c) 44 then push_item v (scan_items n (skip_ws r'))
            else None
        | [] => None
        end
    | None => None
    end.
Proof. reflexivity. Qed.

Lemma scan_pairs_S (n : nat) (t : text) :
  scan_pairs (S n) t
  = match scanstring t with
    | Some (k, r) =>
        match skip_ws r with
        | c :: r1 =>
            if Nat.eqb (code c) 58 then
              match scan_once n (skip_ws r1) with
              | Some (v, r2) =>
                  match skip_ws r2 with
                  | c2 :: r3 =>
                      if Nat.eqb (code c2) 125 then Some ([(KStr k, v)], r3)
                      else if Nat.eqb (code c2) 44 then
                        match skip_ws r3 with
                        | q :: r4 =>
                            if Nat.eqb (code q) 34
                            then push_item (KStr k, v) (scan_pairs n r4)
                            else None
                        | [] => None
                        end
                      else None
                  | [] => None
                  end
              | None => None
              end
            else None
        | [] => None
        end
    | None => None
    end.
Proof. reflexivity. Qed.







(** *** What the decoder builds has [str] keys *)








(** ** Paths and the filesystem *)

Lemma is_anchor_snoc (q : path) (x : string) :
  is_anchor (q ++ [x]) = true -> q = [] /\ is_root x = true.
Proof. destruct q as [|a [|b q]]; simpl; by try destruct q. Qed.

Lemma parent_snoc (q : path) (x : string) :
  is_anchor (q ++ [x]) = false -> parent (q ++ [x]) = q.
Proof. unfold parent. intros ->. apply removelast_last. Qed.

Lemma walk_snoc (f : FS) (x : string) (rest cur : path) :
  walk f cur (rest ++ [x])
  = match walk f cur rest with
    | Found Dir =>
        match node_at f (cur ++ rest ++ [x]) with
        | Some n => Found n
        | None => ENOENT
        end
    | Found (File _) => ENOTDIR
    | ENOENT => ENOENT
    | ENOTDIR => ENOTDIR
    end.
Proof.
  revert cur. induction rest as [|y rest IH]; intros cur; cbn [app walk].
  - by destruct (node_at f cur) as [[|c]|].
  - destruct (node_at f cur) as [[|c]|]; [|done|done].
    rewrite IH. by rewrite <- app_assoc.
Qed.

Lemma stat_snoc (f : FS) (q : path) (x : string) :
  stat f (q ++ [x])
  = match stat f q with
    | Found Dir =>
        match node_at f (q ++ [x]) with
        | Some n => Found n
        | None => ENOENT
        end
    | Found (File _) => ENOTDIR
    | ENOENT => ENOENT
    | ENOTDIR => ENOTDIR
    end.
Proof. apply walk_snoc. Qed.

Lemma walk_found (f : FS) (n : node) (rest cur : path) :
  walk f cur rest = Found n -> node_at f (cur ++ rest) = Some n.
Proof.
  revert cur. induction rest as [|y rest IH]; intros cur; cbn [walk].
  - rewrite app_nil_r. destruct (node_at f cur); naive_solver.
  - destruct (node_at f cur) as [[|c]|]; try done.
    intros H. apply IH in H. by rewrite <- app_assoc in H.
Qed.

Lemma stat_found (f : FS) (p : path) (n : node) :
  stat f p = Found n -> node_at f p = Some n.
Proof. apply walk_found. Qed.

Lemma walk_enotdir (f : FS) (rest cur : path) :
  walk f cur rest = ENOTDIR ->
  exists q c, q `prefix_of` (cur ++ rest) /\ node_at f q = Some (File c).
Proof.
  revert cur. induction rest as [|y rest IH]; intros cur; cbn [walk].
  - by destruct (node_at f cur).
  - destruct (node_at f cur) as [[|c]|] eqn:E; try done.
    + intros H. apply IH in H as (q & c & Hq & Hn).
      exists q, c. by rewrite <- app_assoc in Hq.
    + intros _. exists cur, c. split; [by apply prefix_app_r|done].
Qed.

Lemma node_at_insert_ne (f : FS) (p q : path) (n : node) :
  p <> q -> node_at (<[p := n]> f) q = node_at f q.
Proof. intros H. unfold node_at. destruct (is_anchor q); [done|]. by rewrite lookup_insert_ne. Qed.

Lemma walk_insert (f : FS) (p : path) (n : node) (rest cur : path) :
  ~ p `prefix_of` (cur ++ rest) ->
  walk (<[p := n]> f) cur rest = walk f cur rest.
Proof.
  revert cur. induction rest as [|y rest IH]; intros cur Hp; cbn [walk].
  - rewrite node_at_insert_ne; [done|]. intros ->. apply Hp. by apply prefix_app_r.
  - rewrite node_at_insert_ne; [|intros ->; apply Hp; by apply prefix_app_r].
    destruct (node_at f cur) as [[|c]|]; try done.
    apply IH. by rewrite <- app_assoc.
Qed.

Lemma stat_insert (f : FS) (p q : path) (n : node) :
  ~ p `prefix_of` q -> stat (<[p := n]> f) q = stat f q.
Proof. intros H. by apply walk_insert. Qed.

Lemma not_prefix_snoc (q : path) (x : string) : ~ (q ++ [x]) `prefix_of` q.
Proof.
  intros H. apply prefix_length in H. rewrite length_app in H. simpl in H. lia.
Qed.

(** *** mkdir *)

Lemma grows_by_refl (w : world) : grows_by w w [].
Proof. split; [by rewrite app_nil_r | done]. Qed.

Lemma grows_by_trans (w1 w2 w3 : world) (t1 t2 : list event) :
  grows_by w1 w2 t1 -> grows_by w2 w3 t2 -> grows_by w1 w3 (t1 ++ t2).
Proof.
  intros [H1 H1'] [H2 H2']. split.
  - by rewrite H2, H1, app_assoc.
  - by rewrite H2', H1', fold_left_app.
Qed.


Lemma os_mkdir_cases (p : path) (w : world) :
  (exists e, os_mkdir p w = (Raise e, w))
  \/ (os_mkdir p w = (Ok tt, World (<[p := Dir]> (fs w)) (trace w ++ [EvMkdir p]))
      /\ stat (fs w) (parent p) = Found Dir /\ node_at (fs w) p = None).
Proof.
  unfold os_mkdir, bind, get_fs, raise.
  destruct (stat (fs w) (parent p)) as [[|c]| |] eqn:E; eauto.
  destruct (node_at (fs w) p) eqn:E'; eauto.
Qed.

Lemma stat_anchor (f : FS) (p : path) : is_anchor p = true -> stat f p = Found Dir.
Proof.
  destruct p as [|r [|]]; try done. intros H. unfold stat. cbn [walk app].
  unfold node_at at 1. cbn [is_anchor]. unfold node_at. by rewrite H.
Qed.

Lemma node_at_anchor (f : FS) (p : path) : is_anchor p = true -> node_at f p = Some Dir.
Proof. unfold node_at. by intros ->. Qed.

Lemma parent_anchor (p : path) : is_anchor p = true -> parent p = p.
Proof. unfold parent. by intros ->. Qed.

Lemma os_mkdir_parent_dir (p : path) (w : world) :
  stat (fs w) (parent p) = Found Dir ->
  (forall c, node_at (fs w) p <> Some (File c)) ->
  (os_mkdir p w = (Raise (FileExistsError p), w) /\ stat (fs w) p = Found Dir)
  \/ (os_mkdir p w = (Ok tt, World (<[p := Dir]> (fs w)) (trace w ++ [EvMkdir p]))
      /\ stat (<[p := Dir]> (fs w)) p = Found Dir).
Proof.
  intros Hpar Hnf. unfold os_mkdir, bind, get_fs, raise. rewrite Hpar.
  destruct (node_at (fs w) p) as [[|c]|] eqn:E.
  - left. split; [done|].
    destruct (is_anchor p) eqn:A; [by apply stat_anchor|].
    destruct p as [|x p _] using rev_ind; [done|].
    rewrite parent_snoc in Hpar by done. by rewrite stat_snoc, Hpar, E.
  - by destruct (Hnf c).
  - right. split; [done|].
    destruct (is_anchor p) eqn:A; [by rewrite node_at_anchor in E|].
    destruct p as [|x p _] using rev_ind; [done|].
    rewrite parent_snoc in Hpar by done.
    rewrite stat_snoc, stat_insert, Hpar by apply not_prefix_snoc.
    unfold node_at. by rewrite A, lookup_insert_eq.
Qed.

Lemma made_dir_same (p : path) (w : world) :
  stat (fs w) p = Found Dir -> made_dir p w w.
Proof. intros H. split; [done|]. split; [|done]. exists []. split; [apply grows_by_refl|done]. Qed.

Lemma made_dir_new (p : path) (w : world) :
  stat (<[p := Dir]> (fs w)) p = Found Dir ->
  made_dir p w (World (<[p := Dir]> (fs w)) (trace w ++ [EvMkdir p])).
Proof.
  intros H. split; [done|]. split.
  - exists [EvMkdir p]. split; [by split|]. repeat constructor. by exists p.
  - intros q Hq. cbn [fs]. apply lookup_insert_ne. by intros ->.
Qed.

Lemma mkdir_exist_ok_parent_dir (p : path) (w : world) :
  stat (fs w) (parent p) = Found Dir ->
  (forall c, node_at (fs w) p <> Some (File c)) ->
  exists w', mkdir_exist_ok p w = (Ok tt, w') /\ made_dir p w w'.
Proof.
  intros Hpar Hnf. unfold mkdir_exist_ok.
  destruct (os_mkdir_parent_dir p w Hpar Hnf) as [[-> Hs]|[-> Hs]].
  - unfold is_dir. rewrite Hs. eauto using made_dir_same.
  - eauto using made_dir_new.
Qed.

Lemma mkdir_parents_parent_dir (n : nat) (p : path) (w : world) :
  stat (fs w) (parent p) = Found Dir ->
  (forall c, node_at (fs w) p <> Some (File c)) ->
  exists w', mkdir_parents n p w = (Ok tt, w') /\ made_dir p w w'.
Proof.
  intros Hpar Hnf.
  destruct (os_mkdir_parent_dir p w Hpar Hnf) as [[E Hs]|[E Hs]];
    destruct n; cbn [mkdir_parents]; rewrite E.
  1,2: unfold is_dir; rewrite Hs; eauto using made_dir_same.
  all: eauto using made_dir_new.
Qed.

Lemma mkdir_parents_ok (p : path) :
  forall n w,
    length p <= n -> creatable (fs w) p ->
    exists w', mkdir_parents n p w = (Ok tt, w') /\ made_dir p w w'.
Proof.
  induction p as [|x q IH] using rev_ind; intros n w Hn Hc.
  - apply mkdir_parents_parent_dir; [done|]. intros c. by apply Hc.
  - assert (forall c, node_at (fs w) (q ++ [x]) <> Some (File c)) as Hnf
        by (intros c; by apply Hc).
    destruct (is_anchor (q ++ [x])) eqn:A.
    { apply mkdir_parents_parent_dir; [|done].
      rewrite parent_anchor by done. by apply stat_anchor. }
    destruct (stat (fs w) q) as [[|c]| |] eqn:E.
    + apply mkdir_parents_parent_dir; [|done]. by rewrite parent_snoc.
    + apply stat_found in E. destruct (Hc q c); [by apply prefix_app_r|done].
    + rewrite length_app in Hn. cbn [length] in Hn.
      destruct n as [|n]; [lia|]. cbn [mkdir_parents].
      assert (os_mkdir (q ++ [x]) w = (Raise (FileNotFoundError (q ++ [x])), w)) as ->.
      { unfold os_mkdir, bind, get_fs, raise. by rewrite parent_snoc, E. }
      rewrite A, parent_snoc by done.
      destruct (IH n w) as (w1 & E1 & Hs1 & (tr1 & Hg1 & Hm1) & Hout1); [lia| |].
      { intros q' c Hq'. apply Hc. by apply prefix_app_r. }
      unfold bind at 1. rewrite E1.
      destruct (mkdir_exist_ok_parent_dir (q ++ [x]) w1) as (w2 & E2 & Hs2 & (tr2 & Hg2 & Hm2) & Hout2).
      { by rewrite parent_snoc. }
      { intros c. unfold node_at. rewrite A, Hout1 by apply not_prefix_snoc.
        specialize (Hnf c). unfold node_at in Hnf. by rewrite A in Hnf. }
      exists w2. split; [done|]. split; [done|]. split.
      * exists (tr1 ++ tr2). split; [by eapply grows_by_trans|by apply Forall_app].
      * intros q' Hq'. rewrite Hout2 by done. apply Hout1.
        intros Hp. apply Hq'. by apply prefix_app_r.
    + apply walk_enotdir in E as (q' & c & Hq' & Hf).
      destruct (Hc q' c); [by apply prefix_app_r|done].
Qed.

Lemma Path_mkdir_ok (p : path) (w : world) :
  creatable (fs w) p ->
  exists w', Path_mkdir p w = (Ok tt, w') /\ made_dir p w w'.
Proof. intros H. by apply mkdir_parents_ok. Qed.

Lemma Path_mkdir_existing (p : path) (w : world) :
  stat (fs w) p = Found Dir -> Path_mkdir p w = (Ok tt, w).
Proof.
  intros Hs. unfold Path_mkdir.
  assert (os_mkdir p w = (Raise (FileExistsError p), w)) as E.
  { unfold os_mkdir, bind, get_fs, raise.
    destruct (is_anchor p) eqn:A.
    - by rewrite parent_anchor, Hs, node_at_anchor.
    - destruct p as [|x q _] using rev_ind; [done|].
      rewrite parent_snoc by done. pose proof (stat_found _ _ _ Hs) as Hn.
      rewrite stat_snoc in Hs. rewrite Hn.
      destruct (stat (fs w) q) as [[|c]| |]; try done. }
  destruct (length p); cbn [mkdir_parents]; rewrite E; unfold is_dir; by rewrite Hs.
Qed.

(** *** The name of the task file *)

Lemma split_slash_no_slash (t cur : text) :
  Forall no_slash t -> split_slash cur t = [rev cur ++ t].
Proof.
  intros H. revert cur. induction H as [|c t Hc _ IH]; intros cur; cbn [split_slash].
  - by rewrite app_nil_r.
  - rewrite Hc, IH. cbn [rev]. by rewrite <- app_assoc.
Qed.

Lemma parse_path_name (s : string) :
  Forall no_slash (chars s) -> 2 <= length (chars s) -> parse_path s = [s].
Proof.
  intros Hs Hlen. unfold parse_path.
  rewrite split_slash_no_slash by done. cbn [rev app].
  destruct (chars s) as [|c [|c' t]] eqn:E; cbn [length] in Hlen; try lia.
  apply Forall_cons in Hs as [Hc _]. cbn [leading_slashes]. rewrite Hc. cbn [app].
  rewrite filter_cons_True by done. rewrite filter_nil. cbn [map].
  by rewrite <- E, str_chars.
Qed.

Lemma hexdigit_no_slash (n : nat) : no_slash (hexdigit n).
Proof. do 16 (destruct n as [|n]; [reflexivity|]). reflexivity. Qed.

Lemma hex32_no_slash (i : N) : Forall no_slash (hex32 i).
Proof. unfold hex32. apply Forall_map, Forall_forall. intros. apply hexdigit_no_slash. Qed.

Lemma length_hex32 (i : N) : length (hex32 i) = 32.
Proof. unfold hex32. by rewrite length_map, length_seq. Qed.

Lemma uuid_chars (i : N) :
  exists t, chars (uuid_str i) = t /\ Forall no_slash t /\ length t = 36.
Proof.
  eexists. split; [reflexivity|]. unfold uuid_str. rewrite chars_str.
  pose proof (hex32_no_slash i) as H. pose proof (length_hex32 i) as L.
  set (h := hex32 i) in *. clearbody h. split.
  - repeat first [ by apply Forall_take | by apply Forall_drop
                 | by apply Forall_take, Forall_drop
                 | apply Forall_app; split | apply Forall_cons; split | reflexivity ].
  - repeat (rewrite length_app || rewrite length_take || rewrite length_drop
            || cbn [length]). lia.
Qed.


Lemma parse_path_name_relative (s : string) :
  Forall no_slash (chars s) -> 2 <= length (chars s) ->
  forall p, joinpath p s = p ++ [s].
Proof.
  intros Hs Hl p. unfold joinpath. rewrite parse_path_name by done.
  cbn [is_absolute]. unfold is_root.
  destruct (String.eqb_spec s "/") as [->|_]; [by inversion Hs|].
  destruct (String.eqb_spec s "//") as [->|_]; [by inversion Hs|]. done.
Qed.

Lemma joinpath_task_file (p : path) (i : N) :
  joinpath p (uuid_str i ++ ".json") = p ++ [(uuid_str i ++ ".json")%string].
Proof.
  destruct (uuid_chars i) as (t & E & Ht & Hl).
  apply parse_path_name_relative; rewrite chars_app, E.
  - apply Forall_app. split; [done|]. by repeat constructor.
  - rewrite length_app. lia.
Qed.

Lemma joinpath_tasks (p : path) : joinpath p "tasks" = p ++ ["tasks"].
Proof. reflexivity. Qed.

(** ** create_task_json *)

Lemma dict_set_has_key (k k' : pykey) (v' : json) (d : pydict) :
  has_key k d -> has_key k (dict_set k' v' d).
Proof.
  unfold has_key. induction d as [|[k0 v0] d IH]; simpl; [by intros [? ?]|].
  destruct (key_eqb k0 k') eqn:E; simpl; destruct (key_eqb k0 k); eauto.
Qed.

Lemma dict_set_all_has_key (k : pykey) (items d : pydict) :
  has_key k d -> has_key k (dict_set_all items d).
Proof.
  unfold dict_set_all. revert d.
  induction items as [|[k' v'] items IH]; intros d H; [done|].
  cbn [fold_left]. by apply IH, dict_set_has_key.
Qed.

Lemma update_pairs_has_key (k : pykey) (l : list json) :
  forall i d d', update_pairs i l d = Ok d' -> has_key k d -> has_key k d'.
Proof.
  induction l as [|x l IH]; intros i d d'; cbn [update_pairs].
  - by intros [= ->].
  - destruct (as_pair i x) as [[a b]|]; [|done].
    destruct (hash_key a); [|done].
    intros H Hk. eapply IH; [done|]. by apply dict_set_has_key.
Qed.

Lemma dict_update_has_key (k : pykey) (d d' : pydict) (other : json) :
  dict_update d other = Ok d' -> has_key k d -> has_key k d'.
Proof.
  destruct other as [|b|z|s|l|o]; cbn [dict_update]; try done.
  - destruct s; [by intros [= ->] | done].
  - apply update_pairs_has_key.
  - intros [= <-]. apply dict_set_all_has_key.
Qed.

Lemma only_read_refl (w : world) : only_read w w.
Proof. split; [done | by left]. Qed.

Lemma read_text_cases (p : path) (w : world) :
  (exists e, read_text p w = (Raise e, w))
  \/ (exists c, stat (fs w) p = Found (File c)
              /\ read_text p w = (Ok c, World (fs w) (trace w ++ [EvRead p]))).
Proof.
  unfold read_text, bind, get_fs, raise.
  destruct (stat (fs w) p) as [[|c]| |]; eauto.
Qed.

Lemma json_load_cases (p : path) (w : world) :
  (exists e w', json_load p w = (Raise e, w') /\ only_read w w')
  \/ (exists c v, stat (fs w) p = Found (File c) /\ json_loads c = Some v
                /\ json_load p w = (Ok v, World (fs w) (trace w ++ [EvRead p]))).
Proof.
  unfold json_load, bind.
  destruct (read_text_cases p w) as [[e ->]|(c & Hs & ->)].
  - left. eauto using only_read_refl.
  - destruct (json_loads c) as [v|] eqn:E.
    + right. eauto.
    + left. eexists _, _. split; [reflexivity|]. split; [done|]. right. by eexists.
Qed.

(** The task of [create_task_json] is the record with the merged payload,
    and the run reads at most the payload file. *)
Lemma create_task_json_spec (e : env) (project role description : string)
    (pf : option string) (w : world) (res : result pydict) (w' : world) :
  create_task_json e project role description pf w = (res, w') ->
  only_read w w'
  /\ forall task, res = Ok task ->
       exists p, task = task_with_payload e project role p
                 /\ has_key (KStr "description") p.
Proof.
  assert (has_key (KStr "description") [(KStr "description", JStr description)]) as Hbase
      by (by eexists).
  unfold create_task_json.
  destruct pf as [f|]; [destruct (String.eqb f "")|].
  2: { unfold bind. destruct (json_load_cases (parse_path f) w)
         as [(x & w1 & -> & Hr)|(c & v & Hs & Hv & ->)].
       - intros [= <- <-]. by split.
       - unfold update_payload. cbn [dict_get key_eqb String.eqb Ascii.eqb Bool.eqb].
         unfold bind, lift, ret.
         destruct (dict_update _ v) as [p'|x] eqn:E; intros [= <- <-].
         + split; [split; [done|right; by eexists]|].
           intros task [= <-]. exists p'. split; [reflexivity|].
           by eapply dict_update_has_key.
         + split; [split; [done|right; by eexists]|done]. }
  all: intros [= <- <-]; split; [apply only_read_refl|];
    intros task [= <-]; by eexists.
Qed.

Lemma create_task_json_no_file (e : env) (project role description : string) (w : world) :
  create_task_json e project role description None w
  = (Ok (task_with_payload e project role [(KStr "description", JStr description)]), w).
Proof. reflexivity. Qed.


(** ** send_task, stage by stage *)

Section stages.
Variable L : loader.
Variables (e : env) (project role description : string).
Variables (pf : option string) (config_dir : string).

Lemma send_task_loader_raises (w : world) (x : exn) :
  L project config_dir (fs w) = Raise x ->
  send_task L e project role description pf config_dir w = (Raise x, w).
Proof.
  intros H. unfold send_task, load_config, bind, get_fs, lift. by rewrite H.
Qed.

Lemma send_task_invalid_role (w : world) (c : config) :
  L project config_dir (fs w) = Ok c ->
  role ∉ roles_of c ->
  send_task L e project role description pf config_dir w
  = (Raise (ValueError (invalid_role_message role (roles_of c))), w).
Proof.
  intros H Hr. unfold send_task, load_config, bind, get_fs, lift. rewrite H.
  fold (roles_of c). by rewrite bool_decide_eq_false_2.
Qed.

Lemma send_task_valid_role (w : world) (c : config) :
  L project config_dir (fs w) = Ok c ->
  role ∈ roles_of c ->
  send_task L e project role description pf config_dir w
  = match create_task_json e project role description pf w with
    | (Ok task, w1) =>
        match configured_base_dir c with
        | Some b => write_task b e task w1
        | None =>
            (Raise (KeyError (match messaging c with
                              | Some _ => "base_dir"
                              | None => "messaging"
                              end)), w1)
        end
    | (Raise x, w1) => (Raise x, w1)
    end.
Proof.
  intros H Hr. unfold send_task, load_config, get_fs, lift.
  unfold bind at 1. unfold bind at 1. rewrite H. fold (roles_of c).
  rewrite bool_decide_eq_true_2 by done. cbn [negb]. unfold bind at 1.
  destruct (create_task_json e project role description pf w) as [[task|x] w1] eqn:E;
    [|done].
  destruct (create_task_json_spec _ _ _ _ _ _ _ _ E) as [_ Ht].
  destruct (Ht task eq_refl) as (p & -> & _).
  unfold messaging_base_dir, configured_base_dir.
  destruct (messaging c) as [m|]; [destruct (base_dir m) as [b|]|]; try done.
  unfold bind at 1. unfold ret at 1.
  unfold bind at 1. unfold getitem_str at 1.
  cbn [task_with_payload dict_get key_eqb String.eqb Ascii.eqb Bool.eqb]. unfold ret at 1.
  rewrite joinpath_tasks. unfold task_id_of. rewrite joinpath_task_file.
  unfold write_task, getitem_str, task_file_of, tasks_dir_of, task_id_of.
  cbn [task_with_payload dict_get key_eqb String.eqb Ascii.eqb Bool.eqb].
  reflexivity.
Qed.

End stages.

Lemma open_w_cases (p : path) (w : world) :
  (exists x, open_w p w = (Raise x, w))
  \/ (open_w p w = (Ok tt, World (<[p := File ""]> (fs w)) (trace w ++ [EvCreate p]))
      /\ is_anchor p = false /\ stat (fs w) (parent p) = Found Dir
      /\ node_at (fs w) p <> Some Dir).
Proof.
  unfold open_w, bind, get_fs, raise.
  destruct (is_anchor p); [eauto|].
  destruct (stat (fs w) (parent p)) as [[|c]| |]; eauto.
  destruct (node_at (fs w) p) as [[|c]|] eqn:E; eauto.
  all: right; by repeat split.
Qed.

Lemma open_w_ok (p : path) (w : world) :
  is_anchor p = false ->
  stat (fs w) (parent p) = Found Dir ->
  node_at (fs w) p <> Some Dir ->
  open_w p w = (Ok tt, World (<[p := File ""]> (fs w)) (trace w ++ [EvCreate p])).
Proof.
  intros A Hp Hn. unfold open_w, bind, get_fs, raise. rewrite A, Hp.
  by destruct (node_at (fs w) p) as [[|c]|].
Qed.

Lemma mkdir_exist_ok_grows (p : path) (w : world) (r : result unit) (w' : world) :
  mkdir_exist_ok p w = (r, w') ->
  exists tr, grows_by w w' tr /\ Forall is_mkdir tr.
Proof.
  unfold mkdir_exist_ok.
  destruct (os_mkdir_cases p w) as [[x ->]|[-> _]].
  - intros H. assert (w' = w) as ->; [|exists []; split; [apply grows_by_refl|done]].
    destruct x; try destruct (is_dir (fs w) p); by inversion H.
  - intros [= <- <-]. exists [EvMkdir p]. split; [by split|].
    repeat constructor. by exists p.
Qed.

Lemma mkdir_parents_grows (n : nat) :
  forall p w r w',
    mkdir_parents n p w = (r, w') ->
    exists tr, grows_by w w' tr /\ Forall is_mkdir tr.
Proof.
  induction n as [|n IH]; intros p w r w'; cbn [mkdir_parents];
    (destruct (os_mkdir_cases p w) as [[x ->]|[-> _]];
     [|intros [= <- <-]; exists [EvMkdir p]; split; [by split|];
       repeat constructor; by exists p]).
  - intros H. assert (w' = w) as ->; [|exists []; split; [apply grows_by_refl|done]].
    destruct x; try destruct (is_dir (fs w) p); by inversion H.
  - destruct x as [q| | | | | | |];
      try (intros H; assert (w' = w) as ->;
           [destruct (is_dir (fs w) p); by inversion H
           |exists []; split; [apply grows_by_refl|done]]).
    destruct (is_anchor p).
    { intros [= <- <-]. exists []. split; [apply grows_by_refl|done]. }
    unfold bind.
    destruct (mkdir_parents n (parent p) w) as [[[]|y] w1] eqn:E1;
      destruct (IH _ _ _ _ E1) as (tr1 & Hg1 & Hm1).
    + intros H. destruct (mkdir_exist_ok_grows _ _ _ _ H) as (tr2 & Hg2 & Hm2).
      exists (tr1 ++ tr2). split; [by eapply grows_by_trans|by apply Forall_app].
    + intros [= <- <-]. eauto.
Qed.

(** A run of [write_task] that returns: the directory is made, then the
    file is opened at its final place, then the record is written there. *)
Lemma write_task_ok_inv (b : string) (e : env) (task : pydict) (w w' : world) (id : string) :
  write_task b e task w = (Ok id, w') ->
  exists w2 mk,
    Path_mkdir (tasks_dir_of b) w = (Ok tt, w2)
    /\ grows_by w w2 mk /\ Forall is_mkdir mk
    /\ id = task_id_of e
    /\ w' = World (<[task_file_of b e := File (json_dumps (JDict task))]>
                     (<[task_file_of b e := File ""]> (fs w2)))
                  (trace w2 ++ [EvCreate (task_file_of b e);
                                EvWrite (task_file_of b e) (json_dumps (JDict task))]).
Proof.
  unfold write_task. unfold bind at 1.
  destruct (Path_mkdir (tasks_dir_of b) w) as [[[]|x] w2] eqn:E1; [|done].
  destruct (mkdir_parents_grows _ _ _ _ _ E1) as (mk & Hg & Hm).
  unfold bind at 1.
  destruct (open_w_cases (task_file_of b e) w2) as [[x ->]|[-> _]]; [done|].
  unfold bind, json_dump, write_text, emit, ret. cbn [fs trace apply_event].
  intros [= <- <-]. exists w2, mk.
  split; [done|]. split; [done|]. split; [done|]. split; [done|].
  by rewrite <- app_assoc.
Qed.



Lemma task_file_not_anchor (b : string) (e : env) : is_anchor (task_file_of b e) = false.
Proof.
  unfold task_file_of. destruct (is_anchor _) eqn:A; [|done].
  apply is_anchor_snoc in A as [A _]. unfold tasks_dir_of in A.
  by destruct (parse_path b).
Qed.

Lemma task_file_parent (b : string) (e : env) :
  parent (task_file_of b e) = tasks_dir_of b.
Proof. apply parent_snoc, task_file_not_anchor. Qed.

Lemma node_at_task_file (f : FS) (b : string) (e : env) :
  node_at f (task_file_of b e) = f !! task_file_of b e.
Proof. unfold node_at. by rewrite task_file_not_anchor. Qed.

(** [write_task] succeeds when nothing stands in its way. *)
Lemma write_task_ok (b : string) (e : env) (task : pydict) (w : world) :
  creatable (fs w) (tasks_dir_of b) ->
  fs w !! task_file_of b e <> Some Dir ->
  exists w',
    write_task b e task w = (Ok (task_id_of e), w')
    /\ fs w' !! task_file_of b e = Some (File (json_dumps (JDict task))).
Proof.
  intros Hc Hn.
  destruct (Path_mkdir_ok _ _ Hc) as (w2 & E2 & Hs & _ & Hout).
  unfold write_task. unfold bind at 1. rewrite E2. unfold bind at 1.
  rewrite open_w_ok.
  - unfold bind, json_dump, write_text, emit, ret. cbn [fs trace apply_event].
    eexists. split; [reflexivity|]. cbn [fs]. apply lookup_insert_eq.
  - apply task_file_not_anchor.
  - by rewrite task_file_parent.
  - rewrite node_at_task_file, Hout; [done|]. apply not_prefix_snoc.
Qed.

(** [write_task] over a file that is already there. *)
Lemma write_task_existing (b : string) (e : env) (task : pydict) (w : world) (old : string) :
  stat (fs w) (task_file_of b e) = Found (File old) ->
  write_task b e task w
  = (Ok (task_id_of e),
     World (<[task_file_of b e := File (json_dumps (JDict task))]>
              (<[task_file_of b e := File ""]> (fs w)))
           (trace w ++ [EvCreate (task_file_of b e);
                        EvWrite (task_file_of b e) (json_dumps (JDict task))])).
Proof.
  intros Hs. pose proof (stat_found _ _ _ Hs) as Hn.
  unfold task_file_of in Hs. rewrite stat_snoc in Hs.
  destruct (stat (fs w) (tasks_dir_of b)) as [[|c]| |] eqn:Hd; try done.
  unfold write_task. unfold bind at 1. rewrite Path_mkdir_existing by done.
  unfold bind at 1. rewrite open_w_ok.
  - unfold bind, json_dump, write_text, emit, ret. cbn [fs trace apply_event].
    by rewrite <- app_assoc.
  - apply task_file_not_anchor.
  - by rewrite task_file_parent.
  - by rewrite Hn.
Qed.

(** *** The exceptions of each stage *)

Lemma os_mkdir_raises (p : path) (w : world) (x : exn) (w' : world) :
  os_mkdir p w = (Raise x, w') -> is_os_error x.
Proof.
  unfold os_mkdir, bind, get_fs, raise, emit.
  destruct (stat (fs w) (parent p)) as [[|c]| |]; try by intros [= <- _].
  destruct (node_at (fs w) p); by intros [= <- _].
Qed.

Lemma mkdir_exist_ok_raises (p : path) (w : world) (x : exn) (w' : world) :
  mkdir_exist_ok p w = (Raise x, w') -> is_os_error x.
Proof.
  unfold mkdir_exist_ok.
  destruct (os_mkdir p w) as [[[]|y] w1] eqn:E; [done|].
  apply os_mkdir_raises in E.
  destruct y; try done; try destruct (is_dir (fs w1) p); by intros [= <- _].
Qed.

Lemma mkdir_parents_raises (n : nat) :
  forall p w x w', mkdir_parents n p w = (Raise x, w') -> is_os_error x.
Proof.
  induction n as [|n IH]; intros p w x w'; cbn [mkdir_parents];
    destruct (os_mkdir p w) as [[[]|y] w1] eqn:E; try done;
    apply os_mkdir_raises in E.
  - destruct y; try done; try destruct (is_dir (fs w1) p); by intros [= <- _].
  - destruct y; try done; try (destruct (is_dir (fs w1) p); by intros [= <- _]).
    destruct (is_anchor p); [by intros [= <- _]|].
    unfold bind. destruct (mkdir_parents n (parent p) w1) as [[[]|z] w2] eqn:E2.
    + apply mkdir_exist_ok_raises.
    + intros [= <- _]. by eapply IH.
Qed.

Lemma write_task_raises (b : string) (e : env) (task : pydict) (w : world)
    (x : exn) (w' : world) :
  write_task b e task w = (Raise x, w') -> is_os_error x.
Proof.
  unfold write_task. unfold bind at 1.
  destruct (Path_mkdir (tasks_dir_of b) w) as [[[]|y] w2] eqn:E1.
  - unfold bind at 1.
    destruct (open_w (task_file_of b e) w2) as [[[]|z] w3] eqn:E2; [done|].
    intros [= <- _]. revert E2. unfold open_w, bind, get_fs, raise, emit.
    destruct (is_anchor _); [by intros [= <- _]|].
    destruct (stat _ _) as [[|c]| |]; try by intros [= <- _].
    destruct (node_at _ _) as [[|c]|]; by intros [= <- _].
  - intros [= <- _]. by eapply mkdir_parents_raises.
Qed.

Lemma update_pairs_raises (l : list json) :
  forall i d m, update_pairs i l d = Raise (ValueError m) ->
                exists j len, m = update_length_message j len.
Proof.
  induction l as [|x l IH]; intros i d m; cbn [update_pairs]; [done|].
  destruct (as_pair i x) as [[a c]|y] eqn:E.
  - destruct (hash_key a) as [k|y] eqn:Ek; [apply IH|].
    destruct a; by inversion Ek.
  - intros [= ->]. unfold as_pair in E.
    repeat case_match; simplify_eq; eauto.
Qed.

Lemma dict_update_raises (d : pydict) (other : json) (m : string) :
  dict_update d other = Raise (ValueError m) ->
  exists j len, m = update_length_message j len.
Proof.
  destruct other as [|b|z|s|l|o]; cbn [dict_update]; try done.
  - destruct s; [done|]. intros [= <-]. eauto.
  - apply update_pairs_raises.
Qed.

Lemma invalid_role_message_distinct (role : string) (roles : list string) (j len : nat) :
  invalid_role_message role roles <> update_length_message j len.
Proof. unfold invalid_role_message, update_length_message. simpl. discriminate. Qed.

Lemma json_load_raises (p : path) (w : world) (x : exn) (w' : world) :
  json_load p w = (Raise x, w') -> is_os_error x \/ x = JSONDecodeError.
Proof.
  unfold json_load, bind, read_text, bind, get_fs, raise, emit, ret. cbv beta iota.
  destruct (stat (fs w) p) as [[|c]| |]; try (intros [= <- _]; by left).
  destruct (json_loads c); [done|]. intros [= <- _]. by right.
Qed.

Lemma create_task_json_raises (e : env) (project role description : string)
    (pf : option string) (w w' : world) (r : string) (roles : list string) :
  create_task_json e project role description pf w
  <> (Raise (ValueError (invalid_role_message r roles)), w').
Proof.
  unfold create_task_json.
  destruct pf as [f|]; [destruct (String.eqb f "")|]; try done.
  unfold bind. destruct (json_load (parse_path f) w) as [[v|x] w1] eqn:E.
  - unfold update_payload. cbn [dict_get key_eqb String.eqb Ascii.eqb Bool.eqb].
    unfold bind, lift, ret.
    destruct (dict_update _ v) as [p'|x] eqn:Eu; [done|].
    intros [= -> _]. apply dict_update_raises in Eu as (j & len & Hm).
    by apply invalid_role_message_distinct in Hm.
  - intros [= -> _]. by apply json_load_raises in E as [E|E].
Qed.

(** ** The fuel of the scanner

    The scanner consumes its text: with twice the length of the text as
    fuel, more fuel changes nothing, so [json_loads] never fails for lack
    of fuel. *)

Lemma skip_ws_length (t : text) : length (skip_ws t) <= length t.
Proof.
  induction t as [|c t IH]; [done|]. cbn [skip_ws].
  destruct (is_ws c); cbn [length]; lia.
Qed.

Lemma push_char_length (c : ascii) (o : option (string * text)) (s : string) (r : text) :
  push_char c o = Some (s, r) -> exists s', o = Some (s', r).
Proof. destruct o as [[s' r']|]; [|done]. intros [= _ <-]. by exists s'. Qed.

Lemma scanstring_length_upto (n : nat) :
  forall t s r, length t <= n -> scanstring t = Some (s, r) -> length r < length t.
Proof.
  induction n as [|n IH]; intros t s r Hn.
  - destruct t; [done | cbn [length] in Hn; lia].
  - destruct t as [|c t]; [done|]. cbn [scanstring length] in *.
    repeat case_match; try done; intros Hs; simplify_eq; cbn [length] in *;
      try lia;
      apply push_char_length in Hs as [s' Hs]; apply IH in Hs; cbn [length] in *; lia.
Qed.

Lemma scanstring_length (t : text) (s : string) (r : text) :
  scanstring t = Some (s, r) -> length r < length t.
Proof. by apply (scanstring_length_upto (length t)). Qed.

Lemma scan_digits_length (t : text) :
  forall d r, scan_digits t = (d, r) -> length r <= length t.
Proof.
  induction t as [|c t IH]; intros d r; cbn [scan_digits]; [by intros [= _ <-]|].
  destruct (digit_of c); [|by intros [= _ <-]].
  destruct (scan_digits t) as [d' r'] eqn:E. intros [= _ <-].
  specialize (IH _ _ eq_refl). cbn [length]. lia.
Qed.

Lemma scan_digits_digit_length (c : ascii) (t : text) (d : Decimal.uint) (r : text) :
  is_digit c = true -> scan_digits (c :: t) = (d, r) -> length r <= length t.
Proof.
  unfold is_digit. cbn [scan_digits]. destruct (digit_of c); [|done]. intros _.
  destruct (scan_digits t) as [d' r'] eqn:E. intros [= _ <-].
  by apply scan_digits_length in E.
Qed.

Lemma scan_uint_length (t : text) (d : Decimal.uint) (r : text) :
  scan_uint t = Some (d, r) -> length r < length t.
Proof.
  unfold scan_uint. destruct t as [|c t]; [done|].
  destruct (Nat.eqb (code c) 48); [intros [= _ <-]; cbn [length]; lia|].
  destruct (is_digit c) eqn:E; [|done]. intros [= H].
  apply scan_digits_digit_length in H; [|done]. cbn [length]. lia.
Qed.

Lemma scan_number_length (t : text) (v : json) (r : text) :
  scan_number t = Some (v, r) -> length r < length t.
Proof.
  unfold scan_number.
  destruct t as [|c t]; [|destruct (Nat.eqb (code c) 45)];
    (destruct (scan_uint _) as [[d r']|] eqn:E; [|done]);
    apply scan_uint_length in E;
    (destruct (float_follows r'); [done|]); intros [= _ <-]; cbn [length] in *; lia.
Qed.

Lemma strip_prefix_length (w t r : text) :
  strip_prefix w t = Some r -> length r + length w = length t.
Proof.
  revert t. induction w as [|a w IH]; intros t; cbn [strip_prefix].
  - intros [= <-]. cbn [length]. lia.
  - destruct t as [|c t]; [done|]. destruct (Ascii.eqb a c); [|done].
    intros H. apply IH in H. cbn [length]. lia.
Qed.

Lemma scan_length (n : nat) :
  (forall t v r, scan_once n t = Some (v, r) -> length r < length t)
  /\ (forall t vs r, scan_items n t = Some (vs, r) -> length r < length t)
  /\ (forall t ps r, scan_pairs n t = Some (ps, r) -> length r < length t).
Proof.
  induction n as [|n (IH1 & IH2 & IH3)]; [by repeat split|].
  split; [|split]; intros t x r;
    [cbn [scan_once] | cbn [scan_items] | cbn [scan_pairs]];
    unfold push_item; repeat case_match; try done; intros; simplify_eq;
    repeat match goal with
      | H : skip_ws ?l = _ |- _ => apply (f_equal (@length ascii)) in H
      | H : scanstring _ = Some _ |- _ => apply scanstring_length in H
      | H : scan_number _ = Some _ |- _ => apply scan_number_length in H
      | H : strip_prefix _ _ = Some _ |- _ => apply strip_prefix_length in H
      | H : scan_once _ _ = Some _ |- _ => apply IH1 in H
      | H : scan_items _ _ = Some _ |- _ => apply IH2 in H
      | H : scan_pairs _ _ = Some _ |- _ => apply IH3 in H
      end;
    repeat match goal with
      | H : context [length (skip_ws ?l)] |- _ =>
          lazymatch goal with
          | _ : length (skip_ws l) <= length l |- _ => fail
          | _ => pose proof (skip_ws_length l)
          end
      end;
    cbn [length chars list_ascii_of_string] in *; lia.
Qed.

Lemma scan_fuel_step (n : nat) :
  (forall t, 2 * length t <= n -> scan_once (S n) t = scan_once n t)
  /\ (forall t, 2 * length t + 1 <= n -> scan_items (S n) t = scan_items n t)
  /\ (forall t, 2 * length t + 1 <= n -> scan_pairs (S n) t = scan_pairs n t).
Proof.
  induction n as [|n (IH1 & IH2 & IH3)].
  { split; [|split; intros; lia]. intros [|c t] H; [done | cbn [length] in H; lia]. }
  split; [|split]; intros t Hn.
  - cbn [scan_once]. destruct t as [|c r]; [done|]. cbn [length] in Hn.
    destruct (Nat.eqb (code c) 34); [done|].
    pose proof (skip_ws_length r) as Hws.
    destruct (Nat.eqb (code c) 123).
    { destruct (skip_ws r) as [|c' r'] eqn:E; [done|]. cbn [length] in Hws.
      destruct (Nat.eqb (code c') 125); [done|].
      destruct (Nat.eqb (code c') 34); [|done].
      rewrite IH3; [done|lia]. }
    destruct (Nat.eqb (code c) 91); [|done].
    destruct (skip_ws r) as [|c' r'] eqn:E; [done|]. cbn [length] in Hws.
    destruct (Nat.eqb (code c') 93); [done|].
    rewrite IH2; [done|cbn [length]; lia].
  - rewrite !scan_items_S. rewrite IH1 by lia.
    destruct (scan_once n t) as [[v r]|] eqn:E; [|done].
    apply scan_length in E. pose proof (skip_ws_length r) as Hws.
    destruct (skip_ws r) as [|c r'] eqn:E'; [done|]. cbn [length] in Hws.
    destruct (Nat.eqb (code c) 93); [done|].
    destruct (Nat.eqb (code c) 44); [|done].
    pose proof (skip_ws_length r'). rewrite IH2; [done|lia].
  - rewrite !scan_pairs_S.
    destruct (scanstring t) as [[k r]|] eqn:E; [|done].
    apply scanstring_length in E. pose proof (skip_ws_length r) as Hws.
    destruct (skip_ws r) as [|c r1] eqn:E1; [done|]. cbn [length] in Hws.
    destruct (Nat.eqb (code c) 58); [|done].
    pose proof (skip_ws_length r1) as Hws1. rewrite IH1 by lia.
    destruct (scan_once n (skip_ws r1)) as [[v r2]|] eqn:E2; [|done].
    apply scan_length in E2. pose proof (skip_ws_length r2) as Hws2.
    destruct (skip_ws r2) as [|c2 r3] eqn:E3; [done|]. cbn [length] in Hws2.
    destruct (Nat.eqb (code c2) 125); [done|].
    destruct (Nat.eqb (code c2) 44); [|done].
    pose proof (skip_ws_length r3) as Hws3.
    destruct (skip_ws r3) as [|q r4] eqn:E4; [done|]. cbn [length] in Hws3.
    destruct (Nat.eqb (code q) 34); [|done].
    rewrite IH3; [done|lia].
Qed.

Lemma scan_once_fuel (k n : nat) (t : text) :
  2 * length t <= n -> scan_once (n + k) t = scan_once n t.
Proof.
  intros Hn. induction k as [|k IH]; [by rewrite Nat.add_0_r|].
  rewrite Nat.add_succ_r, <- IH. apply scan_fuel_step. lia.
Qed.

(** [json_loads] gives the scanner enough fuel: more would not change
    its result. *)
Lemma json_loads_fuel (s : string) (k : nat) :
  scan_once (2 * length (skip_ws (chars s)) + 1 + k) (skip_ws (chars s))
  = scan_once (2 * length (skip_ws (chars s)) + 1) (skip_ws (chars s)).
Proof. apply scan_once_fuel. lia. Qed.

(** ** The fuel of mkdir *)

Lemma removelast_length (p : path) : p <> [] -> S (length (removelast p)) = length p.
Proof.
  intros H. destruct p as [|x p _] using rev_ind; [done|].
  rewrite removelast_last, length_app. cbn [length]. lia.
Qed.

Lemma os_mkdir_anchor (p : path) (w : world) :
  is_anchor p = true -> os_mkdir p w = (Raise (FileExistsError p), w).
Proof.
  intros A. unfold os_mkdir, bind, get_fs, raise.
  by rewrite parent_anchor, stat_anchor, node_at_anchor.
Qed.

(** The recursion of [mkdir] follows the parents of [p]: the length of
    [p] is enough fuel. *)
Lemma mkdir_parents_fuel (n : nat) :
  forall m p w, length p <= n -> length p <= m ->
                mkdir_parents n p w = mkdir_parents m p w.
Proof.
  induction n as [|n IH]; intros m p w Hn Hm.
  - destruct p; [|cbn [length] in Hn; lia].
    destruct m; cbn [mkdir_parents]; by rewrite os_mkdir_anchor.
  - destruct m as [|m].
    + destruct p; [|cbn [length] in Hm; lia].
      cbn [mkdir_parents]. by rewrite os_mkdir_anchor.
    + cbn [mkdir_parents].
      destruct (os_mkdir p w) as [[[]|x] w1]; [done|].
      destruct x; try done.
      destruct (is_anchor p) eqn:A; [done|].
      unfold parent, bind. rewrite A.
      assert (p <> []) as Hp by (by intros ->).
      pose proof (removelast_length p Hp).
      rewrite (IH m (removelast p) w1) by lia. done.
Qed.

(** * The claims about the producer *)

Lemma builder_enabled : "builder" ∈ roles_of demo_config.
Proof.
  cbv [roles_of demo_config default enabled_roles].
  apply elem_of_cons. right. apply elem_of_cons. by left.
Qed.

Lemma tester_not_enabled : "tester" ∉ roles_of demo_config.
Proof.
  cbv [roles_of demo_config default enabled_roles]. intros H.
  repeat (apply elem_of_cons in H as [H|H]; [discriminate H|]).
  by apply elem_of_nil in H.
Qed.

(** ** C1: the role check and the result of send_task *)

(** C1 as stated fails: the role [builder] is enabled for the project,
    and yet [send_task] returns no task id, because the payload file
    does not exist; the error is that of [open], not the invalid-role
    error. *)
Lemma send_task_enabled_role_can_fail :
  demo_loader "demo" "config" (fs empty_world) = Ok demo_config
  /\ "builder" ∈ roles_of demo_config
  /\ fst (send_task demo_loader demo_env "demo" "builder" "do it"
            (Some "missing.json") "config" empty_world)
     = Raise (FileNotFoundError ["missing.json"])
  /\ forall id, fst (send_task demo_loader demo_env "demo" "builder" "do it"
                       (Some "missing.json") "config" empty_world) <> Ok id.
Proof.
  split; [reflexivity|]. split; [apply builder_enabled|].
  assert (fst (send_task demo_loader demo_env "demo" "builder" "do it"
                 (Some "missing.json") "config" empty_world)
          = Raise (FileNotFoundError ["missing.json"])) as H by (by vm_compute).
  split; [exact H|]. intros id. by rewrite H.
Qed.

(** C1, amended: a failure of the loader propagates unchanged; with a
    loaded config, [send_task] fails with the invalid-role error exactly
    when the role is not among [enabled_roles]; and when the role is
    enabled, the task is built, [messaging.base_dir] is configured, no file
    stands where the tasks directory has to be and the task file is not a
    directory, [send_task] writes the record and returns the new task id. *)
Theorem send_task_role_check (L : loader) (e : env) (project role description : string)
    (pf : option string) (config_dir : string) (w : world) :
  (forall x, L project config_dir (fs w) = Raise x ->
     send_task L e project role description pf config_dir w = (Raise x, w))
  /\ (forall c, L project config_dir (fs w) = Ok c ->
        (fst (send_task L e project role description pf config_dir w)
         = Raise (ValueError (invalid_role_message role (roles_of c)))
         <-> role ∉ roles_of c)
        /\ (role ∈ roles_of c ->
            forall task w1 b,
              create_task_json e project role description pf w = (Ok task, w1) ->
              configured_base_dir c = Some b ->
              creatable (fs w) (tasks_dir_of b) ->
              fs w !! task_file_of b e <> Some Dir ->
              exists w',
                send_task L e project role description pf config_dir w
                = (Ok (task_id_of e), w')
                /\ fs w' !! task_file_of b e = Some (File (json_dumps (JDict task))))).
Proof.
  split; [intros x; apply send_task_loader_raises|].
  intros c Hc. split; [split|].
  - intros Hx. intros Hin.
    rewrite (send_task_valid_role _ _ _ _ _ _ _ _ _ Hc Hin) in Hx.
    destruct (create_task_json e project role description pf w) as [[task|x] w1] eqn:E.
    + destruct (configured_base_dir c) as [b|]; [|done].
      destruct (write_task b e task w1) as [[id|x] w2] eqn:Ew; [done|].
      apply write_task_raises in Ew. cbn [fst] in Hx. by inversion Hx; subst.
    + cbn [fst] in Hx. inversion Hx; subst. by apply create_task_json_raises in E.
  - intros Hnot. by rewrite (send_task_invalid_role _ _ _ _ _ _ _ _ _ Hc Hnot).
  - intros Hin task w1 b Ht Hb Hcr Hnd.
    rewrite (send_task_valid_role _ _ _ _ _ _ _ _ _ Hc Hin), Ht, Hb.
    destruct (create_task_json_spec _ _ _ _ _ _ _ _ Ht) as [[Hfs _] _].
    apply write_task_ok; by rewrite Hfs.
Qed.

Lemma send_task_role_check_witness :
  send_task demo_loader demo_env "demo" "builder" "do it" None "config" empty_world
  = (Ok demo_id,
     snd (send_task demo_loader demo_env "demo" "builder" "do it" None "config" empty_world))
  /\ fs (snd (send_task demo_loader demo_env "demo" "builder" "do it" None "config"
                empty_world)) !! demo_file
     = Some (File (json_dumps (JDict (task_with_payload demo_env "demo" "builder"
                                        [(KStr "description", JStr "do it")])))).
Proof.
  destruct (send_task_role_check demo_loader demo_env "demo" "builder" "do it" None
              "config" empty_world) as [_ H].
  destruct (H demo_config eq_refl) as [_ H'].
  destruct (H' builder_enabled _ _ "msgs/demo" eq_refl eq_refl)
    as (w' & E & Hf).
  - intros q c _. unfold node_at, empty_world. cbn [fs].
    destruct (is_anchor q); [done|]. by rewrite lookup_empty.
  - unfold empty_world. cbn [fs]. by rewrite lookup_empty.
  - rewrite E. split; [reflexivity|exact Hf].
Defined.

(** ** C8: failures before the task is written *)

(** C8: when the loader raises, when the role is not enabled, and when the
    construction of the task raises (the payload file cannot be opened, is
    not JSON, or cannot be merged), [send_task] raises that exception and
    the filesystem is the one it started from: no directory is made, no
    file is created or written.  For an invalid role the world is left as
    it was, whatever the payload file is: the task is not even built. *)
Theorem send_task_fails_before_writing (L : loader) (e : env)
    (project role description : string) (pf : option string) (config_dir : string)
    (w : world) :
  (forall x, L project config_dir (fs w) = Raise x ->
     send_task L e project role description pf config_dir w = (Raise x, w))
  /\ (forall c, L project config_dir (fs w) = Ok c -> role ∉ roles_of c ->
        send_task L e project role description pf config_dir w
        = (Raise (ValueError (invalid_role_message role (roles_of c))), w))
  /\ (forall c x w1, L project config_dir (fs w) = Ok c -> role ∈ roles_of c ->
        create_task_json e project role description pf w = (Raise x, w1) ->
        send_task L e project role description pf config_dir w = (Raise x, w1)
        /\ fs w1 = fs w
        /\ (trace w1 = trace w \/ exists p, trace w1 = trace w ++ [EvRead p])).
Proof.
  split; [intros x; apply send_task_loader_raises|].
  split; [intros c; apply send_task_invalid_role|].
  intros c x w1 Hc Hin Ht.
  rewrite (send_task_valid_role _ _ _ _ _ _ _ _ _ Hc Hin), Ht.
  split; [done|]. by destruct (create_task_json_spec _ _ _ _ _ _ _ _ Ht) as [[? ?] _].
Qed.

Lemma send_task_fails_before_writing_witness :
  send_task demo_loader demo_env "other" "builder" "do it" None "config" payload_world
  = (Raise (FileNotFoundError ["config"; "other.yaml"]), payload_world)
  /\ send_task demo_loader demo_env "demo" "tester" "do it" (Some "p.json") "config"
       payload_world
     = (Raise (ValueError "Invalid role 'tester'. Must be one of: architect, builder"),
        payload_world)
  /\ send_task demo_loader demo_env "demo" "builder" "do it" (Some "q.json") "config"
       payload_world
     = (Raise (FileNotFoundError ["q.json"]), payload_world).
Proof.
  split; [|split].
  - destruct (send_task_fails_before_writing demo_loader demo_env "other" "builder"
                "do it" None "config" payload_world) as (H & _ & _).
    apply H. reflexivity.
  - destruct (send_task_fails_before_writing demo_loader demo_env "demo" "tester"
                "do it" (Some "p.json") "config" payload_world) as (_ & H & _).
    apply (H demo_config); [reflexivity | apply tester_not_enabled].
  - destruct (send_task_fails_before_writing demo_loader demo_env "demo" "builder"
                "do it" (Some "q.json") "config" payload_world) as (_ & _ & H).
    destruct (H demo_config (FileNotFoundError ["q.json"]) payload_world) as [E _];
      [reflexivity | apply builder_enabled | by vm_compute | exact E].
Defined.

(** ** C10: the producer identity *)

(** C10: in every record [create_task_json] returns, [from] is ["user"]. *)
Theorem create_task_json_from_user (e : env) (project role description : string)
    (pf : option string) (w : world) (task : pydict) (w' : world) :
  create_task_json e project role description pf w = (Ok task, w') ->
  dict_get (KStr "from") task = Some (JStr "user").
Proof.
  intros H. destruct (create_task_json_spec _ _ _ _ _ _ _ _ H) as [_ Ht].
  by destruct (Ht task eq_refl) as (p & -> & _).
Qed.

Lemma create_task_json_from_user_witness :
  exists task w',
    create_task_json demo_env "demo" "builder" "do it" (Some "p.json") payload_world
    = (Ok task, w')
    /\ dict_get (KStr "from") task = Some (JStr "user").
Proof.
  eexists _, _. split; [by vm_compute|].
  eapply (create_task_json_from_user demo_env "demo" "builder" "do it" (Some "p.json")
            payload_world).
  by vm_compute.
Defined.

(** ** C9: the payload file touches the payload only *)

(** C9: with the same id and timestamp drawn, the record built with a
    payload file and the record built without one agree on every key other
    than [payload], so on [task_id], [timestamp], [from], [to], [type] and
    [project]; and they have the same keys in the same order. *)
Theorem payload_file_changes_payload_only (e : env) (project role description : string)
    (pf : option string) (w w' v v' : world) (task task0 : pydict) :
  create_task_json e project role description pf w = (Ok task, w') ->
  create_task_json e project role description None v = (Ok task0, v') ->
  dict_keys task = dict_keys task0
  /\ (forall k, k <> "payload" -> dict_get (KStr k) task = dict_get (KStr k) task0)
  /\ Forall (fun k => dict_get (KStr k) task = dict_get (KStr k) task0)
       ["task_id"; "timestamp"; "from"; "to"; "type"; "project"].
Proof.
  intros H H0.
  destruct (create_task_json_spec _ _ _ _ _ _ _ _ H) as [_ Ht].
  destruct (Ht task eq_refl) as (p & -> & _).
  rewrite create_task_json_no_file in H0. injection H0 as <- _.
  split; [reflexivity|]. split.
  - intros k Hk. unfold task_with_payload. cbn [dict_get key_eqb].
    repeat (case_match; [reflexivity|]).
    apply String.eqb_neq in Hk. rewrite String.eqb_sym in Hk. by rewrite Hk.
  - repeat constructor.
Qed.

Lemma payload_file_changes_payload_only_witness :
  exists task task0,
    fst (create_task_json demo_env "demo" "builder" "do it" (Some "p.json") payload_world)
    = Ok task
    /\ fst (create_task_json demo_env "demo" "builder" "do it" None payload_world)
       = Ok task0
    /\ dict_get (KStr "task_id") task = dict_get (KStr "task_id") task0
    /\ dict_get (KStr "payload") task <> dict_get (KStr "payload") task0.
Proof.
  eexists _, _. split; [by vm_compute|]. split; [by vm_compute|]. split.
  - eapply (payload_file_changes_payload_only demo_env "demo" "builder" "do it"
              (Some "p.json") payload_world _ payload_world payload_world);
      [by vm_compute | reflexivity | done].
  - by vm_compute.
Defined.

(** ** C6: the shape of the record *)



(** ** C4: the round trip and the merge *)








(** ** A run of send_task that returns *)

Lemma send_task_ok_inv (L : loader) (e : env) (project role description : string)
    (pf : option string) (config_dir : string) (w w' : world) (id : string) :
  send_task L e project role description pf config_dir w = (Ok id, w') ->
  exists c task w1 b,
    L project config_dir (fs w) = Ok c
    /\ role ∈ roles_of c
    /\ create_task_json e project role description pf w = (Ok task, w1)
    /\ configured_base_dir c = Some b
    /\ write_task b e task w1 = (Ok id, w').
Proof.
  intros H.
  destruct (L project config_dir (fs w)) as [c|x] eqn:Hc;
    [|by rewrite (send_task_loader_raises _ _ _ _ _ _ _ _ _ Hc) in H].
  destruct (decide (role ∈ roles_of c)) as [Hin|Hnot];
    [|by rewrite (send_task_invalid_role _ _ _ _ _ _ _ _ _ Hc Hnot) in H].
  rewrite (send_task_valid_role _ _ _ _ _ _ _ _ _ Hc Hin) in H.
  destruct (create_task_json e project role description pf w) as [[task|x] w1] eqn:Ht;
    [|done].
  destruct (configured_base_dir c) as [b|] eqn:Hb; [|done].
  by exists c, task, w1, b.
Qed.

(** ** C5: where the record goes *)

(** C5 as stated fails: after a successful call nothing is at
    [msgs/demo/tasks/pending/<task_id>.json]; the record is at
    [msgs/demo/tasks/<task_id>.json]. *)
Lemma task_file_not_in_pending :
  fst (send_task demo_loader demo_env "demo" "builder" "do it" None "config" empty_world)
  = Ok demo_id
  /\ fs (snd (send_task demo_loader demo_env "demo" "builder" "do it" None "config"
                empty_world))
       !! ["msgs"; "demo"; "tasks"; "pending"; String.append demo_id ".json"] = None
  /\ fs (snd (send_task demo_loader demo_env "demo" "builder" "do it" None "config"
                empty_world))
       !! ["msgs"; "demo"; "tasks"; String.append demo_id ".json"]
     = Some (File demo_record).
Proof. by vm_compute. Qed.

(** C5, amended: after a successful call the record is the file
    [<base_dir>/tasks/<task_id>.json], where [base_dir] is
    [messaging.base_dir] of the loaded config and [<task_id>] the id the
    call returns. *)
Theorem send_task_file_path (L : loader) (e : env) (project role description : string)
    (pf : option string) (config_dir : string) (w w' : world) (id : string) :
  send_task L e project role description pf config_dir w = (Ok id, w') ->
  exists c b task,
    L project config_dir (fs w) = Ok c
    /\ configured_base_dir c = Some b
    /\ fst (create_task_json e project role description pf w) = Ok task
    /\ dict_get (KStr "task_id") task = Some (JStr id)
    /\ fs w' !! (parse_path b ++ ["tasks"; String.append id ".json"])
       = Some (File (json_dumps (JDict task))).
Proof.
  intros H. apply send_task_ok_inv in H as (c & task & w1 & b & Hc & _ & Ht & Hb & Hw).
  apply write_task_ok_inv in Hw as (w2 & mk & _ & _ & _ & -> & ->).
  exists c, b, task. split; [done|]. split; [done|]. split; [by rewrite Ht|].
  destruct (create_task_json_spec _ _ _ _ _ _ _ _ Ht) as [_ Hs].
  destruct (Hs task eq_refl) as (p & -> & _). split; [reflexivity|].
  cbn [fs]. change (parse_path b ++ ["tasks"; String.append (task_id_of e) ".json"])
    with (parse_path b ++ ["tasks"] ++ [String.append (task_id_of e) ".json"]).
  rewrite app_assoc. apply lookup_insert_eq.
Qed.

Lemma send_task_file_path_witness :
  exists w' task,
    send_task demo_loader demo_env "demo" "builder" "do it" None "config" empty_world
    = (Ok demo_id, w')
    /\ fs w' !! ["msgs"; "demo"; "tasks"; String.append demo_id ".json"]
       = Some (File (json_dumps (JDict task))).
Proof.
  eexists _, _. split; [by vm_compute|].
  destruct (send_task_file_path demo_loader demo_env "demo" "builder" "do it" None
              "config" empty_world _ demo_id ltac:(by vm_compute))
    as (c & b & task & Hc & Hb & Ht & _ & Hf).
  injection Hc as <-. injection Hb as <-. injection Ht as <-. exact Hf.
Defined.

(** ** C2: a task id that is already taken *)

(** C2 as stated fails: a record named after the task id is in the tasks
    directory, [send_task] returns the id all the same, and the old
    contents are gone. *)
Lemma existing_record_overwritten :
  fs taken_world !! demo_file = Some (File "old record")
  /\ fst (send_task demo_loader demo_env "demo" "builder" "do it" None "config"
            taken_world) = Ok demo_id
  /\ fs (snd (send_task demo_loader demo_env "demo" "builder" "do it" None "config"
                taken_world)) !! demo_file = Some (File demo_record)
  /\ demo_record <> "old record".
Proof. by vm_compute. Qed.

(** C2, amended: when a file named [<task_id>.json] is already in the
    tasks directory, [send_task] raises nothing: it opens that file for
    writing, which empties it, writes the new record into it and returns
    the task id. *)
Theorem send_task_overwrites (L : loader) (e : env) (project role description : string)
    (pf : option string) (config_dir : string) (w w1 : world) (c : config)
    (task : pydict) (b old : string) :
  L project config_dir (fs w) = Ok c ->
  role ∈ roles_of c ->
  create_task_json e project role description pf w = (Ok task, w1) ->
  configured_base_dir c = Some b ->
  stat (fs w) (task_file_of b e) = Found (File old) ->
  exists w',
    send_task L e project role description pf config_dir w = (Ok (task_id_of e), w')
    /\ fs w' !! task_file_of b e = Some (File (json_dumps (JDict task)))
    /\ trace w' = trace w1 ++ [EvCreate (task_file_of b e);
                              EvWrite (task_file_of b e) (json_dumps (JDict task))].
Proof.
  intros Hc Hin Ht Hb Hs.
  rewrite (send_task_valid_role _ _ _ _ _ _ _ _ _ Hc Hin), Ht, Hb.
  destruct (create_task_json_spec _ _ _ _ _ _ _ _ Ht) as [[Hfs _] _].
  rewrite <- Hfs in Hs. rewrite (write_task_existing _ _ _ _ _ Hs).
  eexists. split; [reflexivity|]. split; [|reflexivity].
  cbn [fs]. apply lookup_insert_eq.
Qed.

Lemma send_task_overwrites_witness :
  exists w',
    send_task demo_loader demo_env "demo" "builder" "do it" None "config" taken_world
    = (Ok demo_id, w')
    /\ fs w' !! demo_file = Some (File demo_record)
    /\ trace w' = [EvCreate demo_file; EvWrite demo_file demo_record].
Proof.
  destruct (send_task_overwrites demo_loader demo_env "demo" "builder" "do it" None
              "config" taken_world taken_world demo_config
              (task_with_payload demo_env "demo" "builder"
                 [(KStr "description", JStr "do it")])
              "msgs/demo" "old record")
    as (w' & E & Hf & Ht).
  - reflexivity.
  - apply builder_enabled.
  - reflexivity.
  - reflexivity.
  - by vm_compute.
  - exists w'. split; [exact E|]. split; [exact Hf|exact Ht].
Defined.

(** ** C3: how the record is written *)




(** ** C7: at most one claim per task *)

Lemma pending_claimed_distinct (base : path) (t w t' : string) :
  Mailbox.claimed_file base w t <> Mailbox.pending_file base t'.
Proof.
  unfold Mailbox.claimed_file, Mailbox.pending_file. intros H.
  apply app_inv_head in H. discriminate H.
Qed.

Lemma claim_absent (base : path) (f : FS) (t w : string) :
  f !! Mailbox.pending_file base t = None ->
  Mailbox.claim base f t w = (Mailbox.AlreadyClaimedError, f).
Proof. intros H. unfold Mailbox.claim, Mailbox.rename. by rewrite H. Qed.

Lemma claim_won (base : path) (f f' : FS) (t w : string) :
  Mailbox.claim base f t w = (Mailbox.Claimed, f') ->
  f' !! Mailbox.pending_file base t = None.
Proof.
  unfold Mailbox.claim, Mailbox.rename.
  destruct (f !! Mailbox.pending_file base t) as [n|]; [|done].
  destruct (f !! Mailbox.claimed_file base w t); [done|].
  intros [= <-]. rewrite lookup_insert_ne by apply pending_claimed_distinct.
  apply lookup_delete_eq.
Qed.

Lemma claim_keeps_absent (base : path) (f f' : FS) (t t' w : string) (r : Mailbox.outcome) :
  f !! Mailbox.pending_file base t = None ->
  Mailbox.claim base f t' w = (r, f') ->
  f' !! Mailbox.pending_file base t = None.
Proof.
  intros Habs. unfold Mailbox.claim, Mailbox.rename.
  destruct (f !! Mailbox.pending_file base t') as [n|]; [|by intros [= _ <-]].
  destruct (f !! Mailbox.claimed_file base w t'); [by intros [= _ <-]|].
  intros [= _ <-]. rewrite lookup_insert_ne by apply pending_claimed_distinct.
  rewrite lookup_delete. by case_decide.
Qed.

(** Once the record of [t] is out of the pending directory, every claim of
    [t] in the rest of the schedule fails. *)
Lemma run_absent (base : path) (t : string) (calls : list Mailbox.call) :
  forall f i c r,
    f !! Mailbox.pending_file base t = None ->
    calls !! i = Some c -> Mailbox.call_task c = t ->
    Mailbox.run base f calls !! i = Some r ->
    r = Mailbox.AlreadyClaimedError.
Proof.
  induction calls as [|c0 calls IH]; intros f i c r Habs Hc Ht Hr; [done|].
  cbn [Mailbox.run] in Hr.
  destruct (Mailbox.claim base f (Mailbox.call_task c0) (Mailbox.call_worker c0))
    as [r0 f'] eqn:E.
  destruct i as [|i]; cbn in Hc, Hr.
  - injection Hc as ->. injection Hr as <-. subst t.
    rewrite claim_absent in E by done. by injection E as <- _.
  - eapply IH; [|done..]. by eapply claim_keeps_absent.
Qed.

Lemma run_winner_first (base : path) (t : string) (calls : list Mailbox.call) :
  forall f i j ci cj rj,
    i < j ->
    calls !! i = Some ci -> Mailbox.call_task ci = t ->
    Mailbox.run base f calls !! i = Some Mailbox.Claimed ->
    calls !! j = Some cj -> Mailbox.call_task cj = t ->
    Mailbox.run base f calls !! j = Some rj ->
    rj = Mailbox.AlreadyClaimedError.
Proof.
  induction calls as [|c0 calls IH]; intros f i j ci cj rj Hij Hci Hti Hri Hcj Htj Hrj;
    [done|].
  cbn [Mailbox.run] in Hri, Hrj.
  destruct (Mailbox.claim base f (Mailbox.call_task c0) (Mailbox.call_worker c0))
    as [r0 f'] eqn:E.
  destruct j as [|j]; [lia|]. cbn in Hcj, Hrj.
  destruct i as [|i]; cbn in Hci, Hri.
  - injection Hci as ->. injection Hri as ->. subst t.
    eapply run_absent; [|done..]. by eapply claim_won.
  - eapply (IH f' i j); try done. lia.
Qed.

(** C7: in every schedule of claim calls, run from any mailbox, when one
    call on a task id has claimed the record, every other call on that
    task id, before or after it, observes [AlreadyClaimedError]: at most
    one claim of a task id succeeds. *)
Theorem claim_at_most_once (base : path) (f : FS) (calls : list Mailbox.call)
    (t : string) (i j : nat) (ci cj : Mailbox.call) (rj : Mailbox.outcome) :
  i <> j ->
  calls !! i = Some ci -> Mailbox.call_task ci = t ->
  Mailbox.run base f calls !! i = Some Mailbox.Claimed ->
  calls !! j = Some cj -> Mailbox.call_task cj = t ->
  Mailbox.run base f calls !! j = Some rj ->
  rj = Mailbox.AlreadyClaimedError.
Proof.
  intros Hij Hci Hti Hri Hcj Htj Hrj.
  destruct (Nat.lt_total i j) as [Hlt|[->|Hgt]]; [|done|].
  - by eapply (run_winner_first base t calls f i j).
  - destruct rj; [|done]. exfalso.
    assert (Mailbox.Claimed = Mailbox.AlreadyClaimedError) as Habs; [|discriminate Habs].
    by eapply (run_winner_first base t calls f j i).
Qed.

Lemma claim_at_most_once_witness :
  Mailbox.run ["msgs"; "demo"]
    {[ Mailbox.pending_file ["msgs"; "demo"] "a" := File "record a";
       Mailbox.pending_file ["msgs"; "demo"] "b" := File "record b" ]}
    [Mailbox.Call "a" "worker-1"; Mailbox.Call "b" "worker-1";
     Mailbox.Call "a" "worker-2"; Mailbox.Call "a" "worker-3"] !! 0
  = Some Mailbox.Claimed
  /\ nth 3 (Mailbox.run ["msgs"; "demo"]
              {[ Mailbox.pending_file ["msgs"; "demo"] "a" := File "record a";
                 Mailbox.pending_file ["msgs"; "demo"] "b" := File "record b" ]}
              [Mailbox.Call "a" "worker-1"; Mailbox.Call "b" "worker-1";
               Mailbox.Call "a" "worker-2"; Mailbox.Call "a" "worker-3"])
           Mailbox.Claimed
     = Mailbox.AlreadyClaimedError.
Proof.
  split; [by vm_compute|].
  apply (claim_at_most_once ["msgs"; "demo"]
           {[ Mailbox.pending_file ["msgs"; "demo"] "a" := File "record a";
              Mailbox.pending_file ["msgs"; "demo"] "b" := File "record b" ]}
           [Mailbox.Call "a" "worker-1"; Mailbox.Call "b" "worker-1";
            Mailbox.Call "a" "worker-2"; Mailbox.Call "a" "worker-3"]
           "a" 0 3 (Mailbox.Call "a" "worker-1") (Mailbox.Call "a" "worker-3"));
    [lia | reflexivity | reflexivity | by vm_compute | reflexivity | reflexivity
    | by vm_compute].
Defined.
